(** * Pixel-to-Prose: the PDF to Markdown pipeline of [pdf2md.py]

    A shallow embedding of [PDFToMarkdownConverter] (src/pdf2md.py) and the
    properties of its chunked fan-out / ordered fan-in pipeline.

    Conventions of the embedding.
    - Python [int] is [Z]; [str] is [string] (a sequence of UTF-8 bytes).
    - A raised exception is the [Raise] case of [result]; [str(e)] is [str].
    - The file system is a finite map from paths to files together with the
      number of files the disk can still take; a write to a new path on a
      full disk raises, as [new_doc.save] and [open(.., 'w')] do.
    - [uuid.uuid4().hex] and the remote model are oracles: the converter is
      proved correct for every choice of them.
    - [time.sleep] is recorded as an event carrying the delay; logging, the
      tqdm progress bar and the wall-clock statistics only write to the
      console and are left out, except where they can raise.
    - The thread pool is modelled by the order in which [as_completed]
      yields the futures, an arbitrary arrangement of the submitted jobs.
      A job only reads the file system, so jobs do not interfere. *)

From stdpp Require Import gmap strings list sorting pretty.
From Stdlib Require Import ZArith Ascii.

Local Open Scope Z_scope.

(** ** Python values and exceptions *)

Module Py.

(** An exception object: its class name and the text of [str(e)]. *)
Inductive exn : Type := PyErr (cls : string) (msg : string).

Definition str (e : exn) : string :=
  match e with PyErr _ msg => msg end.

Definition Exception (msg : string) : exn := PyErr "Exception" msg.
Definition ValueError (msg : string) : exn := PyErr "ValueError" msg.
Definition TypeError (msg : string) : exn := PyErr "TypeError" msg.
Definition ZeroDivisionError (msg : string) : exn :=
  PyErr "ZeroDivisionError" msg.
Definition FileNotFoundError (msg : string) : exn :=
  PyErr "FileNotFoundError" msg.
Definition OSError (msg : string) : exn := PyErr "OSError" msg.

(** The outcome of a call: a value, or an exception on its way up. *)
Inductive result (A : Type) : Type :=
| Ok (a : A)
| Raise (e : exn).
Global Arguments Ok {A} a.
Global Arguments Raise {A} e.

(** [len(range(start, stop, step))] for a non-zero step, as CPython
    computes it. *)
Definition range_len (start stop step : Z) : Z :=
  if 0 <? step then
    if start <? stop then (stop - start - 1) / step + 1 else 0
  else
    if stop <? start then (start - stop - 1) / (- step) + 1 else 0.

(** [range(start, stop, step)], listed. A zero step raises. *)
Definition range (start stop step : Z) : result (list Z) :=
  if step =? 0 then Raise (ValueError "range() arg 3 must not be zero")
  else Ok ((λ i : nat, start + Z.of_nat i * step)
             <$> seq 0 (Z.to_nat (range_len start stop step))).

(** [range(stop)], which never raises. *)
Definition range_stop (stop : Z) : list Z :=
  (λ i : nat, Z.of_nat i) <$> seq 0 (Z.to_nat stop).

(** [a / b] on ints. The quotient is a float that the converter only
    prints; what matters to control flow is whether the division raises. *)
Definition truediv (a b : Z) : result unit :=
  if b =? 0 then Raise (ZeroDivisionError "division by zero") else Ok tt.

(** The quotient of [a] by [b], rounded up. *)
Definition ceil_div (a b : Z) : Z := (a + b - 1) / b.

(** The two-character separator ["\n\n"]. *)
Definition blank_line : string :=
  String "010"%char (String "010"%char EmptyString).

(** [sep.join(parts)]. *)
Definition join (sep : string) (parts : list string) : string :=
  String.concat sep parts.

End Py.
Export Py.

(** ** The file system, PyMuPDF documents and the remote model *)

Section Converter.

(** The content of one page of a PDF document. *)
Context {Page : Type}.

Inductive file : Type :=
| PdfFile (pages : list Page)
| TextFile (text : string).

(** The world a conversion runs in. [free_slots] is the number of new
    files the disk still has room for; [uuid_count] counts the calls to
    [uuid.uuid4] made so far. *)
Record World : Type := mkWorld {
  files : gmap string file;
  free_slots : nat;
  uuid_count : nat
}.

(** Stateful, fallible computations. *)
Definition M (A : Type) : Type := World → result A * World.

Definition ret {A} (a : A) : M A := λ w, (Ok a, w).
Definition raise {A} (e : exn) : M A := λ w, (Raise e, w).
Definition bind {A B} (c : M A) (k : A → M B) : M B :=
  λ w, match c w with
       | (Ok a, w') => k a w'
       | (Raise e, w') => (Raise e, w')
       end.
(** Lift a call that cannot touch the world. *)
Definition lift {A} (r : result A) : M A := λ w, (r, w).

Notation "x <- c ;; k" := (bind c (λ x, k))
  (at level 100, c at next level, right associativity).

(** Writing [f] to [path]: an existing file is replaced in place, a new
    one needs a free slot. *)
Definition fs_write (path : string) (f : file) : M unit :=
  λ w, match files w !! path with
       | Some _ =>
           (Ok tt, mkWorld (<[path := f]> (files w)) (free_slots w)
                           (uuid_count w))
       | None =>
           match free_slots w with
           | O => (Raise (OSError ("[Errno 28] No space left on device: '"
                                     +:+ path +:+ "'")), w)
           | S k => (Ok tt, mkWorld (<[path := f]> (files w)) k
                                    (uuid_count w))
           end
       end.

(** [os.path.exists(path)]. *)
Definition path_exists (path : string) (w : World) : bool :=
  bool_decide (is_Some (files w !! path)).

(** [os.remove(path)]. *)
Definition os_remove (path : string) : M unit :=
  λ w, match files w !! path with
       | Some _ =>
           (Ok tt, mkWorld (delete path (files w)) (S (free_slots w))
                           (uuid_count w))
       | None =>
           (Raise (FileNotFoundError
                     ("[Errno 2] No such file or directory: '"
                        +:+ path +:+ "'")), w)
       end.

(** [open(path, 'rb').read()]: the bytes of any existing file. *)
Definition read_bytes (path : string) (w : World) : result file :=
  match files w !! path with
  | Some f => Ok f
  | None => Raise (FileNotFoundError
                     ("[Errno 2] No such file or directory: '"
                        +:+ path +:+ "'"))
  end.

(** [fitz.open(path)]: the pages of a PDF file. *)
Definition fitz_open (path : string) (w : World) : result (list Page) :=
  match files w !! path with
  | Some (PdfFile pages) => Ok pages
  | Some (TextFile _) =>
      Raise (PyErr "FileDataError" ("Failed to open file '" +:+ path +:+ "'."))
  | None => Raise (FileNotFoundError ("no such file: '" +:+ path +:+ "'"))
  end.

(** The pages [lo..hi] of [doc], both ends included and zero-based. *)
Definition page_slice (doc : list Page) (lo hi : Z) : list Page :=
  take (Z.to_nat (hi - lo + 1)) (drop (Z.to_nat lo) doc).

(** [new_doc.insert_pdf(doc, from_page=.., to_page=..)] into an empty
    [new_doc]: PyMuPDF clamps the two ends to the document and copies
    backwards when they are given in decreasing order. *)
Definition insert_pdf (doc : list Page) (from_page to_page : Z) : list Page :=
  let last := Z.of_nat (length doc) - 1 in
  let fp := if from_page <? 0 then 0
            else if last <? from_page then last else from_page in
  let tp := if (to_page <? 0) || (last <? to_page) then last else to_page in
  if fp <=? tp then page_slice doc fp tp else reverse (page_slice doc tp fp).

(** Whether a path ends with the separator. *)
Fixpoint ends_with_sep (path : string) : bool :=
  match path with
  | EmptyString => false
  | String c EmptyString => Ascii.eqb c "/"%char
  | String _ path' => ends_with_sep path'
  end.

(** [os.path.join(dir, name)] for a relative [name]. *)
Definition path_join (dir name : string) : string :=
  if String.eqb dir EmptyString || ends_with_sep dir then dir +:+ name
  else dir +:+ "/" +:+ name.

(** The request body built by [_read_pdf_file]. The base64 text stands
    in a one-to-one relation with the bytes read, so the payload keeps
    the file itself. *)
Record pdf_data : Type := mkPdfData {
  mime_type : string;
  data : file
}.

(** One remote call: the text of the response, or the exception raised by
    [generate_content] or by [response.text]. The answer may differ from
    one chunk to the next and from one attempt to the next. *)
Definition Model : Type := Z → Z → pdf_data → result string.

(** The converter object ([self]). *)
Record PDFToMarkdownConverter : Type := mkConverter {
  chunk_size : Z;
  max_retries : Z;
  temp_dir : string;
  model : Model;
  (** the hex digits produced by the n-th call of [uuid.uuid4] *)
  uuid4_hex : nat → string
}.

Definition uuid4 (self : PDFToMarkdownConverter) : M string :=
  λ w, (Ok (uuid4_hex self (uuid_count w)),
        mkWorld (files w) (free_slots w) (S (uuid_count w))).

(** *** [_split_pdf] *)

(** The path of the chunk file named after the [n]-th UUID drawn. *)
Definition chunk_file_name (self : PDFToMarkdownConverter) (n : nat)
    : string :=
  path_join (temp_dir self) ("chunk_" +:+ uuid4_hex self n +:+ ".pdf").

(** The pages of the chunk file at [path], as [fitz.open] sees them. *)
Definition chunk_pages (w : World) (path : string) : list Page :=
  match fitz_open path w with
  | Ok pages => pages
  | Raise _ => []
  end.

(** The body of [for start in range(0, total_pages, self.chunk_size)],
    iterated over the remaining values of [start]. *)
Fixpoint split_loop (self : PDFToMarkdownConverter) (doc : list Page)
    (total_pages : Z) (starts : list Z) (temp_files : list string)
    : M (list string) :=
  match starts with
  | [] => ret temp_files
  | start :: starts' =>
      let end_ := Z.min (start + chunk_size self) total_pages in
      let new_doc := insert_pdf doc start (end_ - 1) in
      hex <- uuid4 self ;;
      let temp_file_path :=
        path_join (temp_dir self) ("chunk_" +:+ hex +:+ ".pdf") in
      _ <- fs_write temp_file_path (PdfFile new_doc) ;;
      split_loop self doc total_pages starts' (temp_files ++ [temp_file_path])
  end.

Definition _split_pdf (self : PDFToMarkdownConverter) (pdf_path : string)
    : M (list string) :=
  let temp_files := [] in
  doc <- (λ w, (fitz_open pdf_path w, w)) ;;
  let total_pages := Z.of_nat (length doc) in
  starts <- lift (range 0 total_pages (chunk_size self)) ;;
  split_loop self doc total_pages starts temp_files.

(** *** [_read_pdf_file] and [_process_chunk] *)

Definition _read_pdf_file (pdf_path : string) (w : World) : result pdf_data :=
  match read_bytes pdf_path w with
  | Ok content_ => Ok (mkPdfData "application/pdf" content_)
  | Raise e => Raise (Exception ("PDF文件读取失败: " +:+ str e))
  end.

(** The dictionary returned for one chunk. *)
Record ChunkResult : Type := mkChunkResult {
  index : Z;
  content : string;
  success : bool
}.

(** What one job does besides computing its result. *)
Inductive event : Type :=
| EvAttempt (attempt : Z)      (* the [try] block is entered *)
| EvSleep (seconds : Z).       (* [time.sleep(seconds)] *)

(** The first and last page number of chunk [chunk_index], counted from
    one, as [page_info] prints them. *)
Definition page_info (self : PDFToMarkdownConverter) (chunk_index : Z)
    (doc : list Page) : Z * Z :=
  (chunk_index * chunk_size self + 1,
   chunk_index * chunk_size self + Z.of_nat (length doc)).

(** The [try] block of one attempt. *)
Definition attempt_body (self : PDFToMarkdownConverter) (w : World)
    (pdf_path : string) (chunk_index attempt : Z) : result ChunkResult :=
  match _read_pdf_file pdf_path w with
  | Raise e => Raise e
  | Ok pdf_data_ =>
      match fitz_open pdf_path w with
      | Raise e => Raise e
      | Ok doc =>
          let _ := page_info self chunk_index doc in
          match model self chunk_index attempt pdf_data_ with
          | Raise e => Raise e
          | Ok text => Ok (mkChunkResult chunk_index text true)
          end
      end
  end.

(** The placeholder stored for a chunk that could not be processed. *)
Definition failure_placeholder (e : exn) : string :=
  "<!-- 处理失败: " +:+ str e +:+ " -->".

(** [for attempt in range(self.max_retries)], iterated over the attempts
    still to come. Falling off the end of the loop returns [None]. *)
Fixpoint process_loop (self : PDFToMarkdownConverter) (w : World)
    (pdf_path : string) (chunk_index : Z) (attempts : list Z)
    (trace : list event) : option ChunkResult * list event :=
  match attempts with
  | [] => (None, trace)
  | attempt :: attempts' =>
      let trace := trace ++ [EvAttempt attempt] in
      match attempt_body self w pdf_path chunk_index attempt with
      | Ok r => (Some r, trace)
      | Raise e =>
          let trace := trace ++ [EvSleep (2 ^ attempt)] in
          if attempt =? max_retries self - 1 then
            (Some (mkChunkResult chunk_index (failure_placeholder e) false),
             trace)
          else process_loop self w pdf_path chunk_index attempts' trace
      end
  end.

(** The events of a job whose attempts all fail: every attempt is
    followed by its sleep, the last one included. *)
Fixpoint failing_trace (attempts : list Z) : list event :=
  match attempts with
  | [] => []
  | attempt :: attempts' =>
      EvAttempt attempt :: EvSleep (2 ^ attempt) :: failing_trace attempts'
  end.

(** A job reads the world and leaves it as it is; it returns the
    dictionary (or [None]) and the events it went through. *)
Definition _process_chunk (self : PDFToMarkdownConverter) (w : World)
    (pdf_path : string) (chunk_index : Z)
    : option ChunkResult * list event :=
  process_loop self w pdf_path chunk_index (range_stop (max_retries self)) [].

(** *** [convert_to_markdown] *)

(** [list.sort(key=lambda x: x['index'])] is stable; on a list without
    [None] it is insertion from the right in front of the first element
    whose key is not smaller. *)
Fixpoint insert_by_index (r : ChunkResult) (l : list ChunkResult)
    : list ChunkResult :=
  match l with
  | [] => [r]
  | x :: l' =>
      if index r <=? index x then r :: x :: l'
      else x :: insert_by_index r l'
  end.

Definition sort_by_index (l : list ChunkResult) : list ChunkResult :=
  foldr insert_by_index [] l.

(** The orders on dictionaries induced by the sort key. *)
Definition index_le (r1 r2 : ChunkResult) : Prop := index r1 ≤ index r2.
Definition index_lt (r1 r2 : ChunkResult) : Prop := index r1 < index r2.

(** The key function subscripts every element; [None] cannot be
    subscripted. *)
Fixpoint subscript_all (results : list (option ChunkResult))
    : result (list ChunkResult) :=
  match results with
  | [] => Ok []
  | None :: _ => Raise (TypeError "'NoneType' object is not subscriptable")
  | Some r :: results' =>
      match subscript_all results' with
      | Ok rs => Ok (r :: rs)
      | Raise e => Raise e
      end
  end.

Definition sort_results (results : list (option ChunkResult))
    : result (list ChunkResult) :=
  match subscript_all results with
  | Ok rs => Ok (sort_by_index rs)
  | Raise e => Raise e
  end.

(** The jobs submitted for the chunks, in submission order. *)
Definition jobs (self : PDFToMarkdownConverter) (w : World)
    (temp_files : list string) : list (option ChunkResult) :=
  imap (λ idx temp_file,
          (_process_chunk self w temp_file (Z.of_nat idx)).1) temp_files.

(** The [results] list after the dispatch. With [parallel] the futures
    are appended in the order [completion] in which [as_completed]
    yields them; otherwise the jobs run one after the other. *)
Definition dispatch (self : PDFToMarkdownConverter) (parallel : bool)
    (completion : list nat) (temp_files : list string) (w : World)
    : list (option ChunkResult) :=
  if parallel then
    let futures := jobs self w temp_files in
    omap (λ i, futures !! i) completion
  else jobs self w temp_files.

(** The [try] block after the split: dispatch, sort, join, statistics.
    It does not change the world. *)
Definition assemble (self : PDFToMarkdownConverter) (parallel : bool)
    (completion : list nat) (temp_files : list string) (w : World)
    : result string :=
  let chunks_count := Z.of_nat (length temp_files) in
  let results := dispatch self parallel completion temp_files w in
  match sort_results results with
  | Raise e => Raise e
  | Ok results =>
      let markdown_content := join blank_line (content <$> results) in
      let success_count :=
        Z.of_nat (length (filter (λ r, success r = true) results)) in
      match truediv success_count chunks_count with
      | Raise e => Raise e
      | Ok _ => Ok markdown_content
      end
  end.

(** The whole [try] block: its outcome, the value of the variable
    [temp_files] when the block is left, and the world at that point.
    When [_split_pdf] raises the assignment never happens and
    [temp_files] still is the empty list it was initialised with. *)
Definition convert_try (self : PDFToMarkdownConverter) (pdf_path : string)
    (parallel : bool) (completion : list nat) (w : World)
    : result string * list string * World :=
  match _split_pdf self pdf_path w with
  | (Raise e, w1) => (Raise e, [], w1)
  | (Ok temp_files, w1) =>
      (assemble self parallel completion temp_files w1, temp_files, w1)
  end.

(** The [finally] block: every listed file that still exists is removed;
    an exception of [os.remove] is logged and dropped. *)
Fixpoint cleanup (temp_files : list string) (w : World) : World :=
  match temp_files with
  | [] => w
  | temp_file :: temp_files' =>
      let w' :=
        if path_exists temp_file w then
          match os_remove temp_file w with
          | (Ok _, w') => w'
          | (Raise _, w') => w'
          end
        else w in
      cleanup temp_files' w'
  end.

(** The context put in front of the message of a caught exception. *)
Definition conversion_error (e : exn) : exn :=
  Exception ("转换过程出错: " +:+ str e).

Definition convert_to_markdown (self : PDFToMarkdownConverter)
    (pdf_path : string) (parallel : bool) (completion : list nat)
    : M string :=
  λ w,
    let '(r, temp_files, w1) :=
      convert_try self pdf_path parallel completion w in
    let r' := match r with
              | Ok markdown_content => Ok markdown_content
              | Raise e => Raise (conversion_error e)
              end in
    (r', cleanup temp_files w1).

(** The number of chunk files a run on [pdf_path] creates and hands to
    the dispatch: the [chunks_count] of the source, and none when the split
    raises. *)
Definition chunks_count (self : PDFToMarkdownConverter) (pdf_path : string)
    (w : World) : nat :=
  match (_split_pdf self pdf_path w).1 with
  | Ok temp_files => length temp_files
  | Raise _ => 0%nat
  end.

(** *** [save_markdown]

    The method uses [self] for its logger only. *)

Definition save_markdown (markdown_text output_path : string) : M unit :=
  λ w, match fs_write output_path (TextFile markdown_text) w with
       | (Ok _, w') => (Ok tt, w')
       | (Raise e, w') => (Raise (Exception ("文件保存错误: " +:+ str e)), w')
       end.

(** *** What a job costs *)

(** The time a job spent in [time.sleep]. *)
Fixpoint slept (trace : list event) : Z :=
  match trace with
  | [] => 0
  | EvSleep seconds :: trace' => seconds + slept trace'
  | EvAttempt _ :: trace' => slept trace'
  end.

(** The number of times a job entered its [try] block. *)
Fixpoint attempts_made (trace : list event) : nat :=
  match trace with
  | [] => 0%nat
  | EvAttempt _ :: trace' => S (attempts_made trace')
  | EvSleep _ :: trace' => attempts_made trace'
  end.

(** *** [_cleanup_temp_dir]

    Directories are not objects of the world: a directory is there when a
    stored path lies under it, and its entries are the first components of
    those paths. *)

(** What is left of [path] behind the prefix [dir], if it starts with it. *)
Fixpoint strip_prefix (dir path : string) : option string :=
  match dir, path with
  | EmptyString, _ => Some path
  | String a dir', String b path' =>
      if Ascii.eqb a b then strip_prefix dir' path' else None
  | String _ _, EmptyString => None
  end.

(** The part of a relative path in front of its first separator. *)
Fixpoint first_component (path : string) : string :=
  match path with
  | EmptyString => EmptyString
  | String c path' =>
      if Ascii.eqb c "/"%char then EmptyString
      else String c (first_component path')
  end.

(** Whether a name is free of separators. *)
Fixpoint no_sep (name : string) : bool :=
  match name with
  | EmptyString => true
  | String c name' => negb (Ascii.eqb c "/"%char) && no_sep name'
  end.

(** The entry of [dir] under which [path] lies, if it lies under [dir]. *)
Definition entry_of (dir path : string) : option string :=
  match strip_prefix dir path with
  | Some (String c rest) =>
      if Ascii.eqb c "/"%char then
        match first_component rest with
        | EmptyString => None
        | name => Some name
        end
      else None
  | _ => None
  end.

(** [os.listdir(dir)], in some order. *)
Definition listdir (dir : string) (w : World) : list string :=
  remove_dups (omap (entry_of dir) (map_to_list (files w)).*1).

(** The loop over the entries: what is a file is removed, an exception is
    logged and dropped. *)
Fixpoint sweep (dir : string) (entries : list string) (w : World) : World :=
  match entries with
  | [] => w
  | file_ :: entries' =>
      let file_path := path_join dir file_ in
      let w' :=
        if path_exists file_path w then
          match os_remove file_path w with
          | (Ok _, w') => w'
          | (Raise _, w') => w'
          end
        else w in
      sweep dir entries' w'
  end.

(** The exit handler. [os.rmdir] has no file to change, and its exception
    when entries are left is dropped like any other. *)
Definition _cleanup_temp_dir (self : PDFToMarkdownConverter) : World → World :=
  λ w,
    if bool_decide (listdir (temp_dir self) w ≠ []) then
      sweep (temp_dir self) (listdir (temp_dir self) w) w
    else w.

(** *** [main]

    The script converts [pdf_path] with chunks of three pages, three
    attempts per chunk and the thread pool, saves the text to
    [output_path] and prints one line; an exception of either step ends in
    the [except] clause, which prints it. The two paths, which the source
    leaves to be filled in, and the environment of the converter are the
    parameters; the result is the line printed and the world left. *)
Definition main (temp_dir_ : string) (model_ : Model)
    (uuid4_hex_ : nat → string) (pdf_path output_path : string)
    (completion : list nat) : World → string * World :=
  λ w,
    let converter := mkConverter 3 3 temp_dir_ model_ uuid4_hex_ in
    match convert_to_markdown converter pdf_path true completion w with
    | (Raise e, w1) => ("转换过程中出现错误: " +:+ str e, w1)
    | (Ok markdown_content, w1) =>
        match save_markdown markdown_content output_path w1 with
        | (Raise e, w2) => ("转换过程中出现错误: " +:+ str e, w2)
        | (Ok _, w2) => ("转换完成！文件已保存至: " +:+ output_path, w2)
        end
    end.

End Converter.

Arguments file : clear implicits.
Arguments World : clear implicits.
Arguments PDFToMarkdownConverter : clear implicits.

(** ** Sample runs

    Concrete converters and worlds on which the statements below are
    evaluated. A page is represented by its page number. *)

Module Samples.

(** A source of file names: the n-th name is [n + 1] letters long. *)
Fixpoint sample_hex (n : nat) : string :=
  match n with
  | O => "c"
  | S n' => String "c"%char (sample_hex n')
  end.

(** A fake OCR client answering ["chunk{index}"]. *)
Definition chunk_ocr : @Model nat :=
  λ chunk_index _ _, Ok ("chunk" +:+ pretty chunk_index).

(** A fake OCR client answering the letters ["A"], ["B"], ... *)
Definition letter_ocr : @Model nat :=
  λ chunk_index _ _,
    Ok (String (ascii_of_nat (65 + Z.to_nat chunk_index)) EmptyString).

(** A remote model that is down. *)
Definition failing_ocr : @Model nat :=
  λ _ attempt _,
    Raise (Exception ("503 Service Unavailable #" +:+ pretty attempt)).

(** A remote model that is down for chunk 1 only. *)
Definition flaky_ocr : @Model nat :=
  λ chunk_index attempt p,
    if chunk_index =? 1 then failing_ocr chunk_index attempt p
    else chunk_ocr chunk_index attempt p.

Definition converter (chunk_size max_retries : Z) (ocr : @Model nat)
    : PDFToMarkdownConverter nat :=
  mkConverter chunk_size max_retries "temp" ocr sample_hex.

(** A disk holding ["in.pdf"] with pages 1 to [pages] and room for
    [slots] more files. *)
Definition disk (pages slots : nat) : World nat :=
  mkWorld {[ "in.pdf" := PdfFile (seq 1 pages) ]} slots 0.

(** The converter of the end-to-end scenario: chunks of three pages,
    three attempts, the client answering ["chunk{index}"]. *)
Definition chunks : PDFToMarkdownConverter nat := converter 3 3 chunk_ocr.

(** One page per chunk, the client answering letters. *)
Definition letters : PDFToMarkdownConverter nat := converter 1 3 letter_ocr.

(** Three attempts against a model that is down. *)
Definition down : PDFToMarkdownConverter nat := converter 3 3 failing_ocr.

(** Three attempts, chunk 1 never answered. *)
Definition flaky : PDFToMarkdownConverter nat := converter 3 3 flaky_ocr.

(** No attempt at all. *)
Definition no_retries : PDFToMarkdownConverter nat := converter 3 0 chunk_ocr.

(** A remote model that answers from the third call for a chunk on. *)
Definition recovering_ocr : @Model nat :=
  λ chunk_index attempt p,
    if attempt <? 2 then failing_ocr chunk_index attempt p
    else chunk_ocr chunk_index attempt p.

(** Three attempts, the first two of them unanswered. *)
Definition recovering : PDFToMarkdownConverter nat :=
  converter 3 3 recovering_ocr.

(** Chunks of twenty pages. *)
Definition wide : PDFToMarkdownConverter nat := converter 20 3 chunk_ocr.

(** A negative chunk size. *)
Definition backwards : PDFToMarkdownConverter nat :=
  converter (-2) 3 chunk_ocr.

(** The chunk files of a split into [n] chunks on an untouched disk. *)
Definition chunk_files (n : nat) : list string :=
  chunk_file_name chunks <$> seq 0 n.

(** The world in which the jobs of a run on ["in.pdf"] start. *)
Definition after_split (self : PDFToMarkdownConverter nat) (w : World nat)
    : World nat :=
  (_split_pdf self "in.pdf" w).2.

(** A disk holding a single three-page chunk file. *)
Definition one_chunk : World nat :=
  mkWorld {[ "temp/chunk_c.pdf" := PdfFile (seq 1 3) ]} 0 1.

End Samples.

(** * Properties *)

Section Properties.

Context {Page : Type}.
Implicit Types (self : PDFToMarkdownConverter Page) (w : World Page).
Implicit Types (e : exn) (r : @ChunkResult) (doc : list Page).

(** ** One chunk job: attempts, backoff and the returned dictionary *)

Lemma attempt_body_index self w pdf_path chunk_index attempt r :
  attempt_body self w pdf_path chunk_index attempt = Ok r →
  index r = chunk_index ∧ success r = true.
Proof.
  unfold attempt_body. intros H.
  destruct (_read_pdf_file pdf_path w); [|discriminate].
  destruct (fitz_open pdf_path w); [|discriminate].
  destruct (model self chunk_index attempt a); [|discriminate].
  by injection H as <-.
Qed.

(** A failing remote call makes the attempt fail, whatever the file
    system holds. *)
Lemma attempt_body_model_fails self w pdf_path chunk_index attempt :
  (∀ p, ∃ e, model self chunk_index attempt p = Raise e) →
  ∃ e, attempt_body self w pdf_path chunk_index attempt = Raise e.
Proof.
  intros Hfail. unfold attempt_body.
  destruct (_read_pdf_file pdf_path w) as [p|e]; [|by eexists].
  destruct (fitz_open pdf_path w) as [doc|e]; [|by eexists].
  destruct (Hfail p) as [e ->]. by eexists.
Qed.

(** When the chunk file is a readable PDF the attempt fails with the
    very exception of the remote call. *)
Lemma attempt_body_readable self w pdf_path chunk_index attempt doc :
  files w !! pdf_path = Some (PdfFile doc) →
  attempt_body self w pdf_path chunk_index attempt =
    match model self chunk_index attempt
            (mkPdfData "application/pdf" (PdfFile doc)) with
    | Ok text => Ok (mkChunkResult chunk_index text true)
    | Raise e => Raise e
    end.
Proof.
  intros Hf. unfold attempt_body, _read_pdf_file, read_bytes, fitz_open.
  by rewrite Hf.
Qed.

(** The loop never falls through when at least one attempt is left and
    the attempts left end at [max_retries - 1]. *)
Lemma process_loop_returns self w pdf_path chunk_index :
  ∀ (n a : nat) trace,
    n ≠ 0%nat → Z.of_nat (a + n) = max_retries self →
    ∃ r, (process_loop self w pdf_path chunk_index
            (Z.of_nat <$> seq a n) trace).1 = Some r
         ∧ index r = chunk_index.
Proof.
  induction n as [|n IH]; intros a trace Hn Hmax; [done|]. simpl.
  destruct (attempt_body self w pdf_path chunk_index (Z.of_nat a))
    as [r|e] eqn:Hbody.
  - exists r. split; [done|]. by eapply attempt_body_index.
  - destruct (Z.eqb_spec (Z.of_nat a) (max_retries self - 1)) as [Hlast|Hmore].
    + by eexists.
    + apply IH; lia.
Qed.

Lemma process_loop_all_fail self w pdf_path chunk_index :
  ∀ (n a : nat) trace,
    Z.of_nat (a + S n) = max_retries self →
    (∀ attempt, 0 ≤ attempt < max_retries self →
       ∃ e, attempt_body self w pdf_path chunk_index attempt = Raise e) →
    ∃ e, attempt_body self w pdf_path chunk_index (max_retries self - 1)
           = Raise e
         ∧ process_loop self w pdf_path chunk_index
             (Z.of_nat <$> seq a (S n)) trace
           = (Some (mkChunkResult chunk_index (failure_placeholder e) false),
              trace ++ failing_trace (Z.of_nat <$> seq a (S n))).
Proof.
  induction n as [|n IH]; intros a trace Hmax Hfail.
  - destruct (Hfail (Z.of_nat a)) as [e He]; [lia|].
    exists e. replace (max_retries self - 1) with (Z.of_nat a) by lia.
    split; [done|]. simpl. rewrite He.
    replace (Z.of_nat a =? max_retries self - 1) with true
      by (symmetry; apply Z.eqb_eq; lia).
    by rewrite <- app_assoc.
  - destruct (Hfail (Z.of_nat a)) as [e0 He0]; [lia|].
    destruct (IH (S a) ((trace ++ [EvAttempt (Z.of_nat a)])
                          ++ [EvSleep (2 ^ Z.of_nat a)])) as (e & He & Hloop);
      [lia|done|].
    exists e. split; [done|].
    change (Z.of_nat <$> seq a (S (S n)))
      with (Z.of_nat a :: (Z.of_nat <$> seq (S a) (S n))).
    cbn [process_loop failing_trace]. rewrite He0.
    replace (Z.of_nat a =? max_retries self - 1) with false
      by (symmetry; apply Z.eqb_neq; lia).
    rewrite Hloop. by rewrite <- !app_assoc.
Qed.

(** With at least one attempt configured a job returns a dictionary that
    carries the index it was given. *)
Lemma process_chunk_returns self w pdf_path chunk_index :
  1 ≤ max_retries self →
  ∃ r, (_process_chunk self w pdf_path chunk_index).1 = Some r
       ∧ index r = chunk_index.
Proof.
  intros Hmax. unfold _process_chunk, range_stop.
  apply process_loop_returns; lia.
Qed.

(** With no attempt configured the loop body never runs and the job
    returns [None]. *)
Lemma process_chunk_no_attempt self w pdf_path chunk_index :
  max_retries self ≤ 0 →
  _process_chunk self w pdf_path chunk_index = (None, []).
Proof.
  intros Hmax. unfold _process_chunk, range_stop.
  by replace (Z.to_nat (max_retries self)) with 0%nat by lia.
Qed.

(** ** Sorting by index *)

Lemma insert_by_index_perm r l : insert_by_index r l ≡ₚ r :: l.
Proof.
  induction l as [|x l IH]; simpl; [done|].
  destruct (index r <=? index x); [done|].
  rewrite IH. apply Permutation_swap.
Qed.

Lemma sort_by_index_perm l : sort_by_index l ≡ₚ l.
Proof.
  induction l as [|x l IH]; simpl; [done|].
  by rewrite insert_by_index_perm, IH.
Qed.

Lemma insert_by_index_sorted r l :
  StronglySorted index_le l → StronglySorted index_le (insert_by_index r l).
Proof.
  induction 1 as [|x l Hl IH Hx]; simpl.
  - repeat constructor.
  - destruct (Z.leb_spec (index r) (index x)) as [Hle|Hgt].
    + constructor; [by constructor|].
      constructor; [done|].
      eapply Forall_impl; [exact Hx|]. unfold index_le. intros; lia.
    + constructor; [done|].
      rewrite insert_by_index_perm. constructor; [|done].
      unfold index_le. lia.
Qed.

Lemma sort_by_index_sorted l : StronglySorted index_le (sort_by_index l).
Proof.
  induction l; simpl; [constructor|by apply insert_by_index_sorted].
Qed.

Lemma index_lt_sorted_le l :
  StronglySorted index_lt l → StronglySorted index_le l.
Proof.
  induction 1 as [|x l Hl IH Hx]; constructor; [done|].
  eapply Forall_impl; [exact Hx|]. unfold index_lt, index_le. intros; lia.
Qed.

(** In a list sorted strictly by index the index identifies the entry. *)
Lemma index_lt_sorted_inj l r1 r2 :
  StronglySorted index_lt l → r1 ∈ l → r2 ∈ l → index r1 = index r2 →
  r1 = r2.
Proof.
  induction 1 as [|x l Hl IH Hx]; intros H1 H2 Heq.
  - by apply elem_of_nil in H1.
  - rewrite Forall_forall in Hx. unfold index_lt in Hx.
    apply elem_of_cons in H1 as [->|H1]; apply elem_of_cons in H2 as [->|H2].
    + done.
    + specialize (Hx _ H2). lia.
    + specialize (Hx _ H1). lia.
    + by apply IH.
Qed.

(** Sorting any arrangement of entries with pairwise distinct indices
    yields the one arrangement that is in index order. *)
Lemma sort_by_index_unique l ordered :
  l ≡ₚ ordered → StronglySorted index_lt ordered →
  sort_by_index l = ordered.
Proof.
  intros Hperm Hsorted.
  apply (StronglySorted_unique_strong index_le).
  - intros x1 x2 H1 H2 Hle1 Hle2.
    rewrite sort_by_index_perm, Hperm in H1.
    apply (index_lt_sorted_inj ordered); [done..|].
    unfold index_le in *. lia.
  - apply sort_by_index_sorted.
  - by apply index_lt_sorted_le.
  - by rewrite sort_by_index_perm.
Qed.

(** A list whose indices count up from [k] is strictly sorted. *)
Lemma counting_indices_sorted (ordered : list ChunkResult) :
  ∀ k : nat,
    index <$> ordered = Z.of_nat <$> seq k (length ordered) →
    StronglySorted index_lt ordered.
Proof.
  induction ordered as [|r l IH]; intros k Hidx; [constructor|].
  change (index r :: (index <$> l)
          = Z.of_nat k :: (Z.of_nat <$> seq (S k) (length l))) in Hidx.
  injection Hidx as Hr Hl.
  constructor; [by apply (IH (S k))|].
  apply Forall_forall. intros x Hx.
  assert (index x ∈ Z.of_nat <$> seq (S k) (length l)) as Hin.
  { rewrite <- Hl. by apply list_elem_of_fmap_2. }
  apply list_elem_of_fmap in Hin as (j & Hxj & Hj).
  apply elem_of_seq in Hj. unfold index_lt. lia.
Qed.

(** ** Dispatch: one result per submitted chunk *)

Lemma subscript_all_some (l : list ChunkResult) :
  subscript_all (Some <$> l) = Ok l.
Proof.
  induction l as [|r l IH]; [done|].
  change (subscript_all (Some <$> r :: l))
    with (match subscript_all (Some <$> l) with
          | Ok rs => Ok (r :: rs)
          | Raise e => Raise e
          end).
  by rewrite IH.
Qed.

(** The outcome of subscripting does not depend on the arrangement of
    the list: the same exception, or the same entries up to order. *)
Lemma subscript_all_perm (l l' : list (option ChunkResult)) :
  l ≡ₚ l' →
  (∃ rs rs', subscript_all l = Ok rs ∧ subscript_all l' = Ok rs'
             ∧ rs ≡ₚ rs')
  ∨ (∃ e, subscript_all l = Raise e ∧ subscript_all l' = Raise e).
Proof.
  induction 1 as [|x l l' Hperm IH|x y l|l1 l2 l3 _ IH1 _ IH2].
  - left. by exists [], [].
  - destruct x as [r|]; simpl.
    + destruct IH as [(rs & rs' & -> & -> & Hrs)|(e & -> & ->)].
      * left. exists (r :: rs), (r :: rs').
        split_and!; [done..|by constructor].
      * right. by exists e.
    + right. by eexists.
  - destruct x as [rx|], y as [ry|]; simpl;
      try (right; by eexists).
    destruct (subscript_all l) as [rs|e].
    + left. exists (ry :: rx :: rs), (rx :: ry :: rs).
      split_and!; [done..|apply Permutation_swap].
    + right. by exists e.
  - destruct IH1 as [(rs1 & rs2 & H1 & H2 & Hp)|(e & H1 & H2)];
      destruct IH2 as [(rs2' & rs3 & H2' & H3 & Hp')|(e' & H2' & H3)];
      rewrite H2 in H2'; simplify_eq.
    + left. exists rs1, rs3. split_and!; [done..|by etrans].
    + right. by exists e'.
Qed.

Lemma omap_lookup_seq {A} (l : list A) :
  omap (λ i, l !! i) (seq 0 (length l)) = l.
Proof.
  induction l as [|x l IH]; [done|].
  cbn [length seq]. rewrite <- fmap_S_seq. csimpl. f_equal.
  rewrite <- IH at 2. apply list_omap_ext.
  apply Forall2_fmap_l, Forall_Forall2_diag, Forall_forall. done.
Qed.

(** With every future yielded once, the collected results are the
    submitted jobs in some order. *)
Lemma dispatch_perm self completion temp_files w :
  completion ≡ₚ seq 0 (length temp_files) →
  dispatch self true completion temp_files w ≡ₚ jobs self w temp_files.
Proof.
  intros Hperm. unfold dispatch. rewrite Hperm.
  replace (length temp_files) with (length (jobs self w temp_files))
    by apply length_imap.
  by rewrite omap_lookup_seq.
Qed.

Lemma jobs_from self w (temp_files : list string) :
  1 ≤ max_retries self →
  ∀ k : nat,
    ∃ ordered,
      imap (λ idx temp_file,
              (_process_chunk self w temp_file (Z.of_nat (k + idx))).1)
           temp_files = Some <$> ordered
      ∧ index <$> ordered = Z.of_nat <$> seq k (length temp_files).
Proof.
  intros Hmax. induction temp_files as [|t l IH]; intros k.
  - by exists [].
  - destruct (IH (S k)) as (ordered & Hjobs & Hidx).
    destruct (process_chunk_returns self w t (Z.of_nat (k + 0)) Hmax)
      as (r & Hr & Hri).
    exists (r :: ordered). rewrite imap_cons. split.
    + rewrite Hr. csimpl. f_equal. rewrite <- Hjobs.
      apply imap_ext. intros i x _. simpl. do 3 f_equal. lia.
    + csimpl. rewrite Hri, Hidx. do 2 f_equal. lia.
Qed.

(** The jobs of a run with at least one attempt per chunk: a dictionary
    for every chunk, carrying indices [0], [1], ... in submission order. *)
Lemma jobs_results self w (temp_files : list string) :
  1 ≤ max_retries self →
  ∃ ordered,
    jobs self w temp_files = Some <$> ordered
    ∧ index <$> ordered = Z.of_nat <$> seq 0 (length temp_files)
    ∧ length ordered = length temp_files.
Proof.
  intros Hmax. destruct (jobs_from self w temp_files Hmax 0%nat)
    as (ordered & Hjobs & Hidx).
  exists ordered. split_and!; [done..|].
  apply (f_equal length) in Hidx.
  by rewrite !length_fmap, length_seq in Hidx.
Qed.

(** Sorting the collected results gives the same list, or raises the same
    exception, as sorting the jobs in submission order. *)
Lemma sort_results_dispatch self completion temp_files w :
  completion ≡ₚ seq 0 (length temp_files) →
  sort_results (dispatch self true completion temp_files w)
  = sort_results (jobs self w temp_files).
Proof.
  intros Hperm. apply (dispatch_perm self _ _ w) in Hperm.
  unfold sort_results.
  destruct (subscript_all_perm _ _ Hperm)
    as [(rs & rs' & -> & Hjobs & Hrs)|(e & -> & ->)]; [|done].
  rewrite Hjobs. f_equal.
  destruct (Z_le_gt_dec 1 (max_retries self)) as [Hmax|Hmax].
  - destruct (jobs_results self w temp_files Hmax)
      as (ordered & Hord & Hidx & Hlen).
    rewrite Hord, subscript_all_some in Hjobs. simplify_eq.
    rewrite <- Hlen in Hidx. apply counting_indices_sorted in Hidx.
    rewrite (sort_by_index_unique rs rs'), (sort_by_index_unique rs' rs');
      done.
  - destruct temp_files as [|t l].
    + simpl in Hjobs. simplify_eq. by apply Permutation_nil_r in Hrs as ->.
    + unfold jobs in Hjobs. rewrite imap_cons in Hjobs.
      rewrite process_chunk_no_attempt in Hjobs by lia. done.
Qed.

Lemma sort_results_jobs self w (temp_files : list string) :
  1 ≤ max_retries self →
  ∃ ordered,
    jobs self w temp_files = Some <$> ordered
    ∧ index <$> ordered = Z.of_nat <$> seq 0 (length temp_files)
    ∧ length ordered = length temp_files
    ∧ sort_results (jobs self w temp_files) = Ok ordered.
Proof.
  intros Hmax. destruct (jobs_results self w temp_files Hmax)
    as (ordered & Hord & Hidx & Hlen).
  exists ordered. split_and!; [done..|].
  unfold sort_results. rewrite Hord, subscript_all_some. f_equal.
  apply sort_by_index_unique; [done|].
  rewrite <- Hlen in Hidx. by apply counting_indices_sorted in Hidx.
Qed.

Lemma subscript_all_ok_inv (l : list (option ChunkResult)) rs :
  subscript_all l = Ok rs → l = Some <$> rs.
Proof.
  revert rs. induction l as [|[r|] l IH]; intros rs H; simpl in H.
  - by simplify_eq.
  - destruct (subscript_all l) as [rs'|]; [|done].
    simplify_eq. by rewrite (IH rs').
  - done.
Qed.

(** The collected results of a run with at least one attempt per chunk
    are dictionaries, the ones of the jobs in some order. *)
Lemma dispatch_results self parallel completion temp_files w ordered :
  (parallel = true → completion ≡ₚ seq 0 (length temp_files)) →
  jobs self w temp_files = Some <$> ordered →
  ∃ results,
    dispatch self parallel completion temp_files w = Some <$> results
    ∧ results ≡ₚ ordered.
Proof.
  intros Hperm Hjobs. destruct parallel.
  - specialize (Hperm eq_refl).
    apply (dispatch_perm self _ _ w) in Hperm.
    destruct (subscript_all_perm _ _ Hperm)
      as [(rs & rs' & Hrs & Hrs' & Hp)|(e & _ & He)].
    + rewrite Hjobs, subscript_all_some in Hrs'. simplify_eq.
      exists rs. split; [|done]. by apply subscript_all_ok_inv.
    + by rewrite Hjobs, subscript_all_some in He.
  - exists ordered. by split.
Qed.

(** ** The [try] block after the split *)

Lemma assemble_parallel_sequential self completion completion' temp_files w :
  completion ≡ₚ seq 0 (length temp_files) →
  assemble self true completion temp_files w
  = assemble self false completion' temp_files w.
Proof.
  intros Hperm. unfold assemble.
  by rewrite (sort_results_dispatch self completion temp_files w Hperm).
Qed.

Lemma assemble_returns self completion temp_files w ordered :
  temp_files ≠ [] →
  sort_results (jobs self w temp_files) = Ok ordered →
  assemble self false completion temp_files w
  = Ok (join blank_line (content <$> ordered)).
Proof.
  intros Hne Hsort. unfold assemble, dispatch. rewrite Hsort.
  unfold truediv.
  destruct (Z.eqb_spec (Z.of_nat (length temp_files)) 0) as [Hz|_]; [|done].
  by destruct temp_files.
Qed.

(** ** The [finally] block *)

Lemma cleanup_absent temp_files : ∀ w path,
  files w !! path = None → files (cleanup temp_files w) !! path = None.
Proof.
  induction temp_files as [|t l IH]; intros w path Hnone; [done|].
  simpl. apply IH. unfold path_exists, os_remove.
  destruct (files w !! t) as [f|] eqn:Ht.
  - rewrite bool_decide_eq_true_2 by eauto. simpl.
    destruct (decide (t = path)) as [->|Hne].
    + apply lookup_delete_eq.
    + by rewrite lookup_delete_ne.
  - rewrite bool_decide_eq_false_2; [done|]. by intros [? ?].
Qed.

(** After the [finally] block none of the listed files exists. *)
Lemma cleanup_removes temp_files : ∀ w path,
  path ∈ temp_files → files (cleanup temp_files w) !! path = None.
Proof.
  induction temp_files as [|t l IH]; intros w path Hin.
  - by apply elem_of_nil in Hin.
  - apply elem_of_cons in Hin as [->|Hin]; [|by apply IH].
    simpl. apply cleanup_absent. unfold path_exists, os_remove.
    destruct (files w !! t) as [f|] eqn:Ht.
    + rewrite bool_decide_eq_true_2 by eauto. simpl. apply lookup_delete_eq.
    + rewrite bool_decide_eq_false_2; [done|]. by intros [? ?].
Qed.

(** The [finally] block leaves every other file alone. *)
Lemma cleanup_other temp_files : ∀ w path,
  path ∉ temp_files → files (cleanup temp_files w) !! path = files w !! path.
Proof.
  induction temp_files as [|t l IH]; intros w path Hnin; [done|].
  apply not_elem_of_cons in Hnin as [Hne Hnin].
  simpl. rewrite IH by done. unfold path_exists, os_remove.
  destruct (files w !! t) as [f|] eqn:Ht.
  - rewrite bool_decide_eq_true_2 by eauto. simpl. by rewrite lookup_delete_ne.
  - rewrite bool_decide_eq_false_2; [done|]. by intros [? ?].
Qed.

(** ** The whole conversion *)

(** A run whose split succeeded with at least one chunk and which makes
    at least one attempt per chunk returns the contents in index order,
    and returns them with the chunk files removed. *)
Lemma convert_returns self pdf_path parallel completion w temp_files w1 :
  _split_pdf self pdf_path w = (Ok temp_files, w1) →
  temp_files ≠ [] →
  1 ≤ max_retries self →
  (parallel = true → completion ≡ₚ seq 0 (length temp_files)) →
  ∃ ordered,
    jobs self w1 temp_files = Some <$> ordered
    ∧ index <$> ordered = Z.of_nat <$> seq 0 (length temp_files)
    ∧ convert_to_markdown self pdf_path parallel completion w
      = (Ok (join blank_line (content <$> ordered)), cleanup temp_files w1).
Proof.
  intros Hsplit Hne Hmax Hperm.
  destruct (sort_results_jobs self w1 temp_files Hmax)
    as (ordered & Hjobs & Hidx & _ & Hsort).
  exists ordered. split_and!; [done..|].
  unfold convert_to_markdown, convert_try. rewrite Hsplit.
  assert (assemble self parallel completion temp_files w1
          = Ok (join blank_line (content <$> ordered))) as ->; [|done].
  destruct parallel.
  - rewrite (assemble_parallel_sequential self completion [] temp_files w1)
      by auto.
    by apply assemble_returns.
  - by apply assemble_returns.
Qed.

(** C1. The returned text is the join, with a blank line, of the
    contents of the collected results sorted by index; whatever the order
    in which the jobs complete, the sorted list is the list of the jobs'
    results in submission order, so the text does not depend on it. *)
Theorem convert_joins_results_in_index_order
    self pdf_path w temp_files w1 :
  _split_pdf self pdf_path w = (Ok temp_files, w1) →
  temp_files ≠ [] →
  1 ≤ max_retries self →
  ∃ ordered,
    jobs self w1 temp_files = Some <$> ordered
    ∧ index <$> ordered = Z.of_nat <$> seq 0 (length temp_files)
    ∧ ∀ parallel completion,
        (parallel = true → completion ≡ₚ seq 0 (length temp_files)) →
        ∃ results,
          dispatch self parallel completion temp_files w1 = Some <$> results
          ∧ results ≡ₚ ordered
          ∧ sort_by_index results = ordered
          ∧ (convert_to_markdown self pdf_path parallel completion w).1
            = Ok (join blank_line (content <$> sort_by_index results)).
Proof.
  intros Hsplit Hne Hmax.
  destruct (sort_results_jobs self w1 temp_files Hmax)
    as (ordered & Hjobs & Hidx & Hlen & _).
  exists ordered. split_and!; [done..|].
  intros parallel completion Hperm.
  destruct (dispatch_results self parallel completion temp_files w1 ordered)
    as (results & Hres & Hp); [done..|].
  assert (sort_by_index results = ordered) as Hsorted.
  { apply sort_by_index_unique; [done|].
    rewrite <- Hlen in Hidx. by apply counting_indices_sorted in Hidx. }
  exists results. split_and!; [done..|].
  destruct (convert_returns self pdf_path parallel completion w temp_files w1)
    as (ordered' & Hjobs' & _ & ->); [done..|].
  rewrite Hjobs in Hjobs'. apply (inj (fmap Some)) in Hjobs' as <-.
  by rewrite Hsorted.
Qed.

(** C7. A parallel run in which every future is yielded once and a
    sequential run end in the same way: the same text (or the same
    exception) and the same files left on disk. A run that splits into
    at least one chunk and makes at least one attempt per chunk does
    return a text. *)
Theorem parallel_and_sequential_agree self pdf_path w completion :
  completion ≡ₚ seq 0 (chunks_count self pdf_path w) →
  convert_to_markdown self pdf_path true completion w
  = convert_to_markdown self pdf_path false completion w
  ∧ (1 ≤ max_retries self → chunks_count self pdf_path w ≠ 0%nat →
     ∃ markdown_content,
       (convert_to_markdown self pdf_path false completion w).1
       = Ok markdown_content).
Proof.
  unfold chunks_count. intros Hperm.
  destruct (_split_pdf self pdf_path w) as [[temp_files|e] w1] eqn:Hsplit;
    simpl in Hperm.
  - split.
    + unfold convert_to_markdown, convert_try. rewrite Hsplit.
      by rewrite (assemble_parallel_sequential self completion completion).
    + intros Hmax Hne.
      destruct (convert_returns self pdf_path false completion w temp_files w1)
        as (ordered & _ & _ & ->); [done| |done|done|by eexists].
      by destruct temp_files.
  - split; [|done].
    unfold convert_to_markdown, convert_try. by rewrite Hsplit.
Qed.

(** A job all of whose attempts fail returns the failure dictionary
    built from the exception of the last attempt, after having slept
    once per attempt. *)
Lemma process_chunk_all_fail self w pdf_path chunk_index :
  1 ≤ max_retries self →
  (∀ attempt, 0 ≤ attempt < max_retries self →
     ∃ e, attempt_body self w pdf_path chunk_index attempt = Raise e) →
  ∃ e, attempt_body self w pdf_path chunk_index (max_retries self - 1)
         = Raise e
       ∧ _process_chunk self w pdf_path chunk_index
         = (Some (mkChunkResult chunk_index (failure_placeholder e) false),
            failing_trace (range_stop (max_retries self))).
Proof.
  intros Hmax Hfail. unfold _process_chunk, range_stop.
  destruct (Z.to_nat (max_retries self)) as [|n] eqn:Hn; [lia|].
  apply (process_loop_all_fail self w pdf_path chunk_index n 0%nat []);
    [lia|done].
Qed.

(** C4. A chunk whose remote call fails on each of the [max_retries]
    attempts yields, without raising, a dictionary with [success] false
    whose content is the HTML comment around the message of the last
    exception; the run still returns, and its text joins the contents of
    all the chunks, the placeholder among them. *)
Theorem failed_chunk_is_absorbed
    self pdf_path parallel completion w temp_files w1 (k : nat) chunk_path :
  _split_pdf self pdf_path w = (Ok temp_files, w1) →
  1 ≤ max_retries self →
  (parallel = true → completion ≡ₚ seq 0 (length temp_files)) →
  temp_files !! k = Some chunk_path →
  (∀ attempt p, 0 ≤ attempt < max_retries self →
     ∃ e, model self (Z.of_nat k) attempt p = Raise e) →
  ∃ e ordered,
    attempt_body self w1 chunk_path (Z.of_nat k) (max_retries self - 1)
      = Raise e
    ∧ (∀ doc, files w1 !! chunk_path = Some (PdfFile doc) →
         model self (Z.of_nat k) (max_retries self - 1)
           (mkPdfData "application/pdf" (PdfFile doc)) = Raise e)
    ∧ (_process_chunk self w1 chunk_path (Z.of_nat k)).1
      = Some (mkChunkResult (Z.of_nat k)
                ("<!-- 处理失败: " +:+ str e +:+ " -->") false)
    ∧ jobs self w1 temp_files = Some <$> ordered
    ∧ length ordered = length temp_files
    ∧ ordered !! k
      = Some (mkChunkResult (Z.of_nat k)
                ("<!-- 处理失败: " +:+ str e +:+ " -->") false)
    ∧ (convert_to_markdown self pdf_path parallel completion w).1
      = Ok (join blank_line (content <$> ordered)).
Proof.
  intros Hsplit Hmax Hperm Hk Hfail.
  destruct (process_chunk_all_fail self w1 chunk_path (Z.of_nat k) Hmax)
    as (e & He & Hjob).
  { intros attempt Hatt. apply attempt_body_model_fails.
    intros p. by apply Hfail. }
  assert (temp_files ≠ []) as Hne by (by intros ->).
  destruct (convert_returns self pdf_path parallel completion w temp_files w1)
    as (ordered & Hjobs & Hidx & ->); [done..|].
  exists e, ordered.
  assert (jobs self w1 temp_files !! k
          = Some (Some (mkChunkResult (Z.of_nat k)
                          (failure_placeholder e) false))) as Hlook.
  { unfold jobs. rewrite list_lookup_imap, Hk. simpl. by rewrite Hjob. }
  split_and!; try done.
  - intros doc Hdoc.
    rewrite (attempt_body_readable self w1 chunk_path _ _ doc Hdoc) in He.
    destruct (model self (Z.of_nat k) (max_retries self - 1)
                (mkPdfData "application/pdf" (PdfFile doc))); by simplify_eq.
  - by rewrite Hjob.
  - apply (f_equal length) in Hidx.
    by rewrite !length_fmap, length_seq in Hidx.
  - rewrite Hjobs, list_lookup_fmap in Hlook.
    destruct (ordered !! k); simpl in Hlook; by simplify_eq.
Qed.

(** C8. An exception that leaves the [try] block reaches the caller as
    one [Exception] whose message is the context followed by the message
    of the cause, and it reaches the caller with the [finally] block
    done: none of the files listed in [temp_files] exists any more. *)
Theorem convert_wraps_error_after_cleanup
    self pdf_path parallel completion w e temp_files w1 :
  convert_try self pdf_path parallel completion w = (Raise e, temp_files, w1) →
  convert_to_markdown self pdf_path parallel completion w
  = (Raise (Exception ("转换过程出错: " +:+ str e)), cleanup temp_files w1)
  ∧ ∀ path, path ∈ temp_files →
      files (convert_to_markdown self pdf_path parallel completion w).2
        !! path = None.
Proof.
  intros Htry. unfold convert_to_markdown. rewrite Htry. split; [done|].
  intros path Hin. by apply cleanup_removes.
Qed.

(** C10. On a source that opens and has no page the split creates no
    chunk, and the run does not return the empty text: the success ratio
    divides by the chunk count, and the caller gets the wrapped
    [ZeroDivisionError]. *)
Theorem convert_zero_pages_raises self pdf_path parallel completion w :
  files w !! pdf_path = Some (PdfFile []) →
  chunk_size self ≠ 0 →
  _split_pdf self pdf_path w = (Ok [], w)
  ∧ convert_try self pdf_path parallel completion w
    = (Raise (ZeroDivisionError "division by zero"), [], w)
  ∧ convert_to_markdown self pdf_path parallel completion w
    = (Raise (Exception "转换过程出错: division by zero"), w).
Proof.
  intros Hfile Hcs.
  assert (_split_pdf self pdf_path w = (Ok [], w)) as Hsplit.
  { unfold _split_pdf, bind, lift, fitz_open, range. rewrite Hfile. simpl.
    destruct (Z.eqb_spec (chunk_size self) 0) as [|_]; [done|].
    unfold range_len. by destruct (0 <? chunk_size self). }
  assert (convert_try self pdf_path parallel completion w
          = (Raise (ZeroDivisionError "division by zero"), [], w)) as Htry.
  { unfold convert_try. rewrite Hsplit.
    unfold assemble, dispatch, jobs. simpl.
    assert (omap (λ i : nat, ([] : list (option ChunkResult)) !! i) completion
            = []) as ->; [by induction completion|].
    by destruct parallel. }
  split_and!; [done..|].
  unfold convert_to_markdown. by rewrite Htry.
Qed.

(** C9. Saving a text to a destination that exists or that the disk has
    room for succeeds and leaves exactly that text there; saving the same
    text again succeeds and changes nothing. *)
Theorem save_markdown_idempotent w markdown_text output_path :
  is_Some (files w !! output_path) ∨ (0 < free_slots w)%nat →
  ∃ w1,
    save_markdown markdown_text output_path w = (Ok tt, w1)
    ∧ files w1 !! output_path = Some (TextFile markdown_text)
    ∧ (∀ path, path ≠ output_path → files w1 !! path = files w !! path)
    ∧ save_markdown markdown_text output_path w1 = (Ok tt, w1).
Proof.
  intros Hroom. unfold save_markdown, fs_write.
  destruct (files w !! output_path) as [f|] eqn:Hf.
  - eexists. split; [done|]. simpl. rewrite lookup_insert_eq.
    split_and!; [done| |by rewrite insert_insert_eq].
    intros path Hne. by rewrite lookup_insert_ne.
  - destruct Hroom as [[? ?]|Hroom]; [done|].
    destruct (free_slots w) as [|slots]; [lia|].
    eexists. split; [done|]. simpl. rewrite lookup_insert_eq.
    split_and!; [done| |by rewrite insert_insert_eq].
    intros path Hne. by rewrite lookup_insert_ne.
Qed.

(** ** Splitting *)

(** The loop of [_split_pdf] started with room for a file per value of
    [start] and with names that differ from one another: it saves one
    file per value, under the names drawn, each holding the pages copied
    for that value, and touches no other file. *)
Lemma split_loop_spec self doc total_pages :
  ∀ starts temp_files w,
    (length starts ≤ free_slots w)%nat →
    NoDup (chunk_file_name self <$> seq (uuid_count w) (length starts)) →
    ∃ w1,
      split_loop self doc total_pages starts temp_files w
      = (Ok (temp_files
               ++ (chunk_file_name self
                     <$> seq (uuid_count w) (length starts))), w1)
      ∧ (∀ (i : nat) start, starts !! i = Some start →
           files w1 !! chunk_file_name self (uuid_count w + i)
           = Some (PdfFile
                     (insert_pdf doc start
                        (Z.min (start + chunk_size self) total_pages - 1))))
      ∧ (∀ path,
           path ∉ chunk_file_name self <$> seq (uuid_count w) (length starts) →
           files w1 !! path = files w !! path).
Proof.
  induction starts as [|start starts IH]; intros temp_files w Hroom Hnames.
  - exists w. simpl. rewrite app_nil_r. by split_and!.
  - cbn [length seq] in Hnames. rewrite fmap_cons in Hnames.
    apply NoDup_cons in Hnames as [Hfresh Hnames].
    set (path := chunk_file_name self (uuid_count w)) in *.
    set (new_doc := insert_pdf doc start
                      (Z.min (start + chunk_size self) total_pages - 1)).
    assert (∃ slots,
              fs_write path (PdfFile new_doc)
                (mkWorld (files w) (free_slots w) (S (uuid_count w)))
              = (Ok tt, mkWorld (<[path := PdfFile new_doc]> (files w)) slots
                          (S (uuid_count w)))
              ∧ (length starts ≤ slots)%nat) as (slots & Hwrite & Hslots).
    { unfold fs_write. simpl in *.
      destruct (files w !! path).
      - exists (free_slots w). split; [done|lia].
      - destruct (free_slots w) as [|slots]; [lia|].
        exists slots. split; [done|lia]. }
    destruct (IH (temp_files ++ [path])
                (mkWorld (<[path := PdfFile new_doc]> (files w)) slots
                   (S (uuid_count w)))) as (w1 & Hloop & Hsaved & Hother);
      [done..|].
    simpl in Hloop, Hsaved, Hother.
    exists w1. split_and!.
    + cbn [split_loop]. unfold bind at 1. unfold uuid4.
      fold new_doc. unfold bind at 1.
      change (path_join (temp_dir self)
                ("chunk_" +:+ uuid4_hex self (uuid_count w) +:+ ".pdf"))
        with path.
      rewrite Hwrite.
      rewrite Hloop. by rewrite <- app_assoc.
    + intros [|i] start' Hi.
      * simpl in Hi. simplify_eq. rewrite Nat.add_0_r.
        rewrite Hother by done. fold path. by rewrite lookup_insert_eq.
      * replace (uuid_count w + S i)%nat with (S (uuid_count w) + i)%nat by lia.
        by apply Hsaved.
    + intros path' Hnin. cbn [length seq] in Hnin. rewrite fmap_cons in Hnin.
      apply not_elem_of_cons in Hnin as [Hne Hnin].
      rewrite Hother by done. by rewrite lookup_insert_ne.
Qed.

(** The values of [start]: the multiples of the chunk size below the
    page count, one per chunk, [ceil(P / s)] of them. *)
Lemma range_chunk_starts (P s : Z) :
  1 ≤ P → 1 ≤ s →
  range 0 P s
  = Ok ((λ i : nat, 0 + Z.of_nat i * s)
          <$> seq 0 (Z.to_nat (ceil_div P s))).
Proof.
  intros HP Hs. unfold range, range_len, ceil_div.
  destruct (Z.eqb_spec s 0) as [|_]; [lia|].
  destruct (Z.ltb_spec 0 s) as [_|]; [|lia].
  destruct (Z.ltb_spec 0 P) as [_|]; [|lia].
  replace (P + s - 1) with (P - 0 - 1 + 1 * s) by lia.
  by rewrite Z.div_add by lia.
Qed.

Lemma chunk_count_bounds (P s : Z) :
  1 ≤ P → 1 ≤ s →
  1 ≤ ceil_div P s
  ∧ (ceil_div P s - 1) * s < P ≤ ceil_div P s * s.
Proof.
  intros HP Hs. unfold ceil_div.
  pose proof (Z.div_mod (P + s - 1) s ltac:(lia)) as Hdm.
  pose proof (Z.mod_pos_bound (P + s - 1) s ltac:(lia)) as Hmod.
  assert (0 < (P + s - 1) / s) by (apply Z.div_str_pos; lia).
  nia.
Qed.

(** The pages copied for the chunk that starts at [k * s]: the next [s]
    pages of the document, or those that are left. *)
Lemma insert_pdf_chunk doc (s : Z) (k : nat) :
  1 ≤ s → Z.of_nat k * s < Z.of_nat (length doc) →
  insert_pdf doc (0 + Z.of_nat k * s)
    (Z.min (0 + Z.of_nat k * s + s) (Z.of_nat (length doc)) - 1)
  = page_slice doc (Z.of_nat k * s)
      (Z.min (Z.of_nat k * s + s) (Z.of_nat (length doc)) - 1)
  ∧ page_slice doc (Z.of_nat k * s)
      (Z.min (Z.of_nat k * s + s) (Z.of_nat (length doc)) - 1)
    = take (Z.to_nat s) (drop (k * Z.to_nat s) doc).
Proof.
  intros Hs Hk. rewrite !Z.add_0_l. split.
  - unfold insert_pdf.
    destruct (Z.ltb_spec (Z.of_nat k * s) 0) as [|_]; [lia|].
    destruct (Z.ltb_spec (Z.of_nat (length doc) - 1) (Z.of_nat k * s))
      as [|_]; [lia|].
    destruct (Z.ltb_spec
                (Z.min (Z.of_nat k * s + s) (Z.of_nat (length doc)) - 1) 0)
      as [|_]; [lia|].
    destruct (Z.ltb_spec (Z.of_nat (length doc) - 1)
                (Z.min (Z.of_nat k * s + s) (Z.of_nat (length doc)) - 1))
      as [|_]; [lia|].
    simpl. destruct (Z.leb_spec (Z.of_nat k * s)
                (Z.min (Z.of_nat k * s + s) (Z.of_nat (length doc)) - 1))
      as [_|]; [done|lia].
  - unfold page_slice.
    replace (Z.to_nat (Z.of_nat k * s)) with (k * Z.to_nat s)%nat by lia.
    destruct (Z.le_ge_cases (Z.of_nat k * s + s) (Z.of_nat (length doc))).
    + f_equal. lia.
    + rewrite !take_ge; [done|rewrite length_drop; lia..].
Qed.

(** Consecutive chunks of [c] pages, put together again. *)
Lemma join_chunks doc (c n : nat) :
  mjoin ((λ k : nat, take c (drop (k * c) doc)) <$> seq 0 n)
  = take (n * c) doc.
Proof.
  induction n as [|n IH]; [done|].
  rewrite seq_S, fmap_app, join_app, IH. simpl. rewrite app_nil_r.
  rewrite take_take_drop. f_equal. lia.
Qed.

(** C2. On a document of [P >= 1] pages and with a chunk size [s >= 1],
    [_split_pdf] returns [ceil(P / s)] chunk files. Chunk [k] holds the
    pages [k * s .. min (k * s + s, P) - 1] of the document (counted from
    zero; [page_info] prints them counted from one), so the chunks read in
    order give back the document page by page, every chunk has [s] pages
    except that the last one may have fewer, and none is empty. The disk
    is assumed to have room for the chunk files and the names drawn to
    differ from one another. *)
Theorem split_pdf_partitions_pages self pdf_path w doc :
  files w !! pdf_path = Some (PdfFile doc) →
  (1 ≤ length doc)%nat →
  1 ≤ chunk_size self →
  (Z.to_nat (ceil_div (Z.of_nat (length doc)) (chunk_size self))
   ≤ free_slots w)%nat →
  NoDup (chunk_file_name self
           <$> seq (uuid_count w)
                 (Z.to_nat (ceil_div (Z.of_nat (length doc))
                              (chunk_size self)))) →
  ∃ temp_files w1,
    _split_pdf self pdf_path w = (Ok temp_files, w1)
    ∧ Z.of_nat (length temp_files)
      = ceil_div (Z.of_nat (length doc)) (chunk_size self)
    ∧ (Z.of_nat (length temp_files) - 1) * chunk_size self
        < Z.of_nat (length doc)
        ≤ Z.of_nat (length temp_files) * chunk_size self
    ∧ mjoin (chunk_pages w1 <$> temp_files) = doc
    ∧ ∀ (k : nat) path,
        temp_files !! k = Some path →
        fitz_open path w1
        = Ok (page_slice doc (Z.of_nat k * chunk_size self)
                (Z.min (Z.of_nat k * chunk_size self + chunk_size self)
                   (Z.of_nat (length doc)) - 1))
        ∧ page_info self (Z.of_nat k) (chunk_pages w1 path)
          = (Z.of_nat k * chunk_size self + 1,
             Z.min (Z.of_nat k * chunk_size self + chunk_size self)
               (Z.of_nat (length doc)))
        ∧ 1 ≤ Z.of_nat (length (chunk_pages w1 path)) ≤ chunk_size self
        ∧ ((S k < length temp_files)%nat →
           Z.of_nat (length (chunk_pages w1 path)) = chunk_size self).
Proof.
  intros Hfile Hlen Hs.
  set (P := Z.of_nat (length doc)). set (s := chunk_size self).
  set (N := Z.to_nat (ceil_div P s)). set (u := uuid_count w).
  intros Hroom Hnames.
  destruct (chunk_count_bounds P s) as (HN1 & HNlo & HNhi);
    [unfold P; lia|done|].
  set (starts := (λ i : nat, 0 + Z.of_nat i * s) <$> seq 0 N).
  assert (length starts = N) as Hstarts
    by (unfold starts; by rewrite length_fmap, length_seq).
  destruct (split_loop_spec self doc P starts [] w)
    as (w1 & Hloop & Hsaved & _); [by rewrite Hstarts..|].
  rewrite Hstarts in Hloop. fold u in Hloop, Hsaved. fold s in Hsaved.
  simpl in Hloop.
  set (c := Z.to_nat s).
  assert (∀ k : nat, (k < N)%nat →
            fitz_open (chunk_file_name self (u + k)) w1
            = Ok (page_slice doc (Z.of_nat k * s)
                    (Z.min (Z.of_nat k * s + s) P - 1))
            ∧ chunk_pages w1 (chunk_file_name self (u + k))
              = take c (drop (k * c) doc)) as Hchunk.
  { intros k Hk.
    assert (starts !! k = Some (0 + Z.of_nat k * s)) as Hstart.
    { unfold starts. rewrite list_lookup_fmap.
      by rewrite (proj2 (lookup_seq 0 N k k)). }
    destruct (insert_pdf_chunk doc s k) as [Hcopy Hslice];
      [done|fold P; nia|].
    fold P in Hcopy, Hslice.
    pose proof (Hsaved k _ Hstart) as Hfilek. rewrite Hcopy in Hfilek.
    unfold chunk_pages, fitz_open. rewrite Hfilek. by split. }
  exists (chunk_file_name self <$> seq u N), w1.
  assert (Z.of_nat (length (chunk_file_name self <$> seq u N))
          = ceil_div P s) as HlenN
    by (rewrite length_fmap, length_seq; unfold N; lia).
  split_and!.
  - unfold _split_pdf, bind, lift, fitz_open. rewrite Hfile.
    fold P. fold s. rewrite range_chunk_starts by (unfold P; lia || done).
    fold N. fold starts. by rewrite Hloop.
  - done.
  - rewrite HlenN. lia.
  - rewrite HlenN. lia.
  - replace (seq u N) with (Nat.add u <$> seq 0 N)
      by (rewrite fmap_add_seq; f_equal; lia).
    rewrite <- !list_fmap_compose.
    rewrite (list_fmap_ext _ (λ k : nat, take c (drop (k * c) doc))).
    + rewrite join_chunks. apply take_ge. unfold c, N, P in *. nia.
    + intros i k Hik. apply lookup_seq in Hik as [-> Hi]. simpl.
      by apply Hchunk.
  - intros k path Hk. rewrite list_lookup_fmap in Hk.
    destruct (seq u N !! k) as [j|] eqn:Hj; [|done].
    apply lookup_seq in Hj as [-> Hj]. simpl in Hk. injection Hk as <-.
    destruct (Hchunk k Hj) as [Hopen Hpages].
    assert (Z.of_nat (length (take c (drop (k * c) doc)))
            = Z.min s (P - Z.of_nat k * s)) as Hsize.
    { rewrite length_take, length_drop. unfold c, P. nia. }
    rewrite length_fmap, length_seq.
    split_and!.
    + done.
    + unfold page_info. rewrite Hpages, Hsize. fold s. f_equal. lia.
    + rewrite Hpages, Hsize. unfold N in Hj. nia.
    + rewrite Hpages, Hsize. unfold N in Hj. nia.
    + intros Hnotlast. rewrite Hpages, Hsize. unfold N in Hnotlast. nia.
Qed.

(** ** What the run leaves on disk *)

(** When the split returns, the run ends with none of the chunk files
    left, whether it returns or raises. *)
Lemma convert_removes_chunk_files
    self pdf_path parallel completion w temp_files w1 :
  _split_pdf self pdf_path w = (Ok temp_files, w1) →
  ∀ path, path ∈ temp_files →
    files (convert_to_markdown self pdf_path parallel completion w).2
      !! path = None.
Proof.
  intros Hsplit path Hin. unfold convert_to_markdown, convert_try.
  rewrite Hsplit. simpl. by apply cleanup_removes.
Qed.


(** With at least one attempt per chunk the indices collected by the
    dispatch are [0 .. N-1], each once, in both modes. *)
Lemma dispatch_indices self parallel completion temp_files w :
  1 ≤ max_retries self →
  (parallel = true → completion ≡ₚ seq 0 (length temp_files)) →
  ∃ results,
    dispatch self parallel completion temp_files w = Some <$> results
    ∧ index <$> results ≡ₚ Z.of_nat <$> seq 0 (length temp_files).
Proof.
  intros Hmax Hperm.
  destruct (jobs_results self w temp_files Hmax)
    as (ordered & Hjobs & Hidx & _).
  destruct (dispatch_results self parallel completion temp_files w ordered)
    as (results & Hres & Hp); [done..|].
  exists results. split; [done|]. by rewrite Hp, Hidx.
Qed.

(** With no attempt configured every collected entry is [None]. *)
Lemma dispatch_no_attempt self parallel completion temp_files w :
  max_retries self ≤ 0 →
  ∀ entry, entry ∈ dispatch self parallel completion temp_files w →
    entry = None.
Proof.
  intros Hmax entry Hin.
  assert (∀ x, x ∈ jobs self w temp_files → x = None) as Hjobs.
  { intros x Hx. unfold jobs in Hx.
    apply list_elem_of_lookup in Hx as [i Hi].
    rewrite list_lookup_imap in Hi.
    destruct (temp_files !! i) as [t|]; [|done]. simpl in Hi.
    rewrite process_chunk_no_attempt in Hi by done. by simplify_eq. }
  unfold dispatch in Hin. destruct parallel; [|by apply Hjobs].
  apply list_elem_of_omap in Hin as (i & _ & Hi).
  apply Hjobs. by eapply list_elem_of_lookup_2.
Qed.

End Properties.

(** * The statements on the sample runs *)

Import Samples.

(** The end-to-end scenario: ten pages in chunks of three. *)
Lemma split_pdf_ten_pages_by_three :
  ∃ temp_files w1,
    _split_pdf chunks "in.pdf" (disk 10 8) = (Ok temp_files, w1)
    ∧ Z.of_nat (length temp_files) = ceil_div (Z.of_nat (length (seq 1 10))) 3
    ∧ (Z.of_nat (length temp_files) - 1) * 3
        < Z.of_nat (length (seq 1 10)) ≤ Z.of_nat (length temp_files) * 3
    ∧ mjoin (chunk_pages w1 <$> temp_files) = seq 1 10
    ∧ ∀ (k : nat) path,
        temp_files !! k = Some path →
        fitz_open path w1
        = Ok (page_slice (seq 1 10) (Z.of_nat k * 3)
                (Z.min (Z.of_nat k * 3 + 3) (Z.of_nat (length (seq 1 10))) - 1))
        ∧ page_info chunks (Z.of_nat k) (chunk_pages w1 path)
          = (Z.of_nat k * 3 + 1,
             Z.min (Z.of_nat k * 3 + 3) (Z.of_nat (length (seq 1 10))))
        ∧ 1 ≤ Z.of_nat (length (chunk_pages w1 path)) ≤ 3
        ∧ ((S k < length temp_files)%nat →
           Z.of_nat (length (chunk_pages w1 path)) = 3).
Proof.
  apply (split_pdf_partitions_pages chunks "in.pdf" (disk 10 8) (seq 1 10)).
  - reflexivity.
  - simpl. lia.
  - simpl. lia.
  - vm_compute. lia.
  - apply (bool_decide_unpack _). vm_compute. exact I.
Defined.

(** The page ranges of that scenario, counted from one as [page_info]
    prints them: [1-3], [4-6], [7-9], [10-10]. *)
Example page_ranges_ten_pages_by_three :
  imap (λ k path,
          page_info chunks (Z.of_nat k)
            (chunk_pages (after_split chunks (disk 10 8)) path))
       (chunk_files 4)
  = [(1, 3); (4, 6); (7, 9); (10, 10)].
Proof. vm_compute. reflexivity. Qed.

(** Five chunks answered ["A"] to ["E"], completing in the order
    3, 0, 4, 1, 2. *)
Lemma letters_joined_in_index_order :
  (convert_to_markdown letters "in.pdf" true [3; 0; 4; 1; 2]%nat (disk 5 5)).1
  = Ok (join blank_line ["A"; "B"; "C"; "D"; "E"]).
Proof.
  destruct (convert_joins_results_in_index_order letters "in.pdf" (disk 5 5)
              (chunk_file_name letters <$> seq 0 5)
              (after_split letters (disk 5 5)))
    as (ordered & Hjobs & _ & Hany).
  - vm_compute. reflexivity.
  - discriminate.
  - simpl. lia.
  - destruct (Hany true [3; 0; 4; 1; 2]%nat)
      as (results & _ & _ & Hsorted & ->).
    + intros _. apply (bool_decide_unpack _). vm_compute. exact I.
    + rewrite Hsorted.
      assert (ordered = [mkChunkResult 0 "A" true; mkChunkResult 1 "B" true;
                         mkChunkResult 2 "C" true; mkChunkResult 3 "D" true;
                         mkChunkResult 4 "E" true]) as ->.
      { apply (inj (fmap Some)). rewrite <- Hjobs. vm_compute. reflexivity. }
      reflexivity.
Defined.

(** Every completion order of three jobs gives the same text. *)
Example letters_every_completion_order :
  Forall (λ completion,
            (convert_to_markdown letters "in.pdf" true completion (disk 3 3)).1
            = Ok (join blank_line ["A"; "B"; "C"]))
         (permutations [0; 1; 2]%nat).
Proof. vm_compute. repeat constructor. Qed.

(** The end-to-end scenario in both modes. *)
Lemma chunks_parallel_and_sequential_agree :
  convert_to_markdown chunks "in.pdf" true [2; 0; 3; 1]%nat (disk 10 8)
  = convert_to_markdown chunks "in.pdf" false [2; 0; 3; 1]%nat (disk 10 8).
Proof.
  apply (parallel_and_sequential_agree chunks "in.pdf" (disk 10 8)
           [2; 0; 3; 1]%nat).
  apply (bool_decide_unpack _). vm_compute. exact I.
Defined.

Example chunks_both_modes_text :
  (convert_to_markdown chunks "in.pdf" true [2; 0; 3; 1]%nat (disk 10 8)).1
  = Ok (join blank_line ["chunk0"; "chunk1"; "chunk2"; "chunk3"])
  ∧ (convert_to_markdown chunks "in.pdf" false [] (disk 10 8)).1
    = Ok (join blank_line ["chunk0"; "chunk1"; "chunk2"; "chunk3"]).
Proof. split; vm_compute; reflexivity. Qed.

(** Chunk 1 of four is never answered: the run returns the three other
    texts around the placeholder. *)
Lemma flaky_chunk_is_absorbed :
  ∃ e ordered,
    attempt_body flaky (after_split flaky (disk 10 8)) "temp/chunk_cc.pdf"
      (Z.of_nat 1) (max_retries flaky - 1) = Raise e
    ∧ (∀ doc,
         files (after_split flaky (disk 10 8)) !! "temp/chunk_cc.pdf"
         = Some (PdfFile doc) →
         model flaky (Z.of_nat 1) (max_retries flaky - 1)
           (mkPdfData "application/pdf" (PdfFile doc)) = Raise e)
    ∧ (_process_chunk flaky (after_split flaky (disk 10 8))
         "temp/chunk_cc.pdf" (Z.of_nat 1)).1
      = Some (mkChunkResult (Z.of_nat 1)
                ("<!-- 处理失败: " +:+ str e +:+ " -->") false)
    ∧ jobs flaky (after_split flaky (disk 10 8)) (chunk_files 4)
      = Some <$> ordered
    ∧ length ordered = length (chunk_files 4)
    ∧ ordered !! 1%nat
      = Some (mkChunkResult (Z.of_nat 1)
                ("<!-- 处理失败: " +:+ str e +:+ " -->") false)
    ∧ (convert_to_markdown flaky "in.pdf" true [3; 1; 0; 2]%nat (disk 10 8)).1
      = Ok (join blank_line (content <$> ordered)).
Proof.
  apply (failed_chunk_is_absorbed flaky "in.pdf" true [3; 1; 0; 2]%nat
           (disk 10 8) (chunk_files 4) (after_split flaky (disk 10 8))
           1%nat "temp/chunk_cc.pdf").
  - vm_compute. reflexivity.
  - simpl. lia.
  - intros _. apply (bool_decide_unpack _). vm_compute. exact I.
  - reflexivity.
  - intros attempt p _. eexists. reflexivity.
Defined.

Example flaky_run_text :
  (convert_to_markdown flaky "in.pdf" true [3; 1; 0; 2]%nat (disk 10 8)).1
  = Ok (join blank_line
          ["chunk0"; "<!-- 处理失败: 503 Service Unavailable #2 -->";
           "chunk2"; "chunk3"]).
Proof. vm_compute. reflexivity. Qed.

(** A run whose sort raises: the caller gets the wrapped exception and
    the four chunk files are gone. *)
Lemma no_retries_error_is_wrapped_after_cleanup :
  convert_to_markdown no_retries "in.pdf" false [] (disk 10 8)
  = (Raise (Exception ("转换过程出错: "
                         +:+ str (TypeError
                                    "'NoneType' object is not subscriptable"))),
     cleanup (chunk_files 4) (after_split no_retries (disk 10 8)))
  ∧ ∀ path, path ∈ chunk_files 4 →
      files (convert_to_markdown no_retries "in.pdf" false [] (disk 10 8)).2
        !! path = None.
Proof.
  apply (convert_wraps_error_after_cleanup no_retries "in.pdf" false []
           (disk 10 8)).
  vm_compute. reflexivity.
Defined.

(** A source that cannot be opened: the same wrapping, nothing to clean. *)
Example missing_source_is_wrapped :
  (convert_to_markdown chunks "missing.pdf" true [] (disk 10 8)).1
  = Raise (Exception "转换过程出错: no such file: 'missing.pdf'").
Proof. vm_compute. reflexivity. Qed.

(** A source without pages. *)
Lemma empty_source_raises :
  _split_pdf chunks "in.pdf" (disk 0 8) = (Ok [], disk 0 8)
  ∧ convert_try chunks "in.pdf" true [] (disk 0 8)
    = (Raise (ZeroDivisionError "division by zero"), [], disk 0 8)
  ∧ convert_to_markdown chunks "in.pdf" true [] (disk 0 8)
    = (Raise (Exception "转换过程出错: division by zero"), disk 0 8).
Proof.
  apply (convert_zero_pages_raises chunks "in.pdf" true [] (disk 0 8)).
  - reflexivity.
  - discriminate.
Defined.

(** Saving twice to a new destination, and over the source itself. *)
Lemma save_twice_new_destination :
  ∃ w1,
    save_markdown "# Title" "out.md" (disk 10 1) = (Ok tt, w1)
    ∧ files w1 !! "out.md" = Some (TextFile "# Title")
    ∧ (∀ path, path ≠ "out.md" → files w1 !! path = files (disk 10 1) !! path)
    ∧ save_markdown "# Title" "out.md" w1 = (Ok tt, w1).
Proof.
  apply (save_markdown_idempotent (disk 10 1) "# Title" "out.md").
  right. simpl. lia.
Defined.

Example save_twice_existing_destination :
  (let w1 := (save_markdown "# Title" "in.pdf" (disk 10 0)).2 in
   files (save_markdown "# Title" "in.pdf" w1).2 !! "in.pdf")
  = Some (TextFile "# Title").
Proof. vm_compute. reflexivity. Qed.

(** ** Where the code departs from the description *)

(** C3. Three attempts against a model that is down. The attempts are
    three and the sleeps before the second and the third attempt last
    [2^0] and [2^1]; but [time.sleep] comes before the test for the last
    attempt, so a third sleep of [2^2] follows the final attempt, before
    the failure dictionary is returned. *)
Theorem backoff_sleeps_after_final_attempt :
  _process_chunk down one_chunk "temp/chunk_c.pdf" 0
  = (Some (mkChunkResult 0
             "<!-- 处理失败: 503 Service Unavailable #2 -->" false),
     [EvAttempt 0; EvSleep 1; EvAttempt 1; EvSleep 2; EvAttempt 2; EvSleep 4]).
Proof. vm_compute. reflexivity. Qed.

(** C5. With [max_retries = 0] the loop of [_process_chunk] has no
    iteration: the job returns [None] instead of a dictionary, the result
    list holds no index at all, and the sort raises. *)
Theorem zero_retries_job_returns_none :
  _process_chunk no_retries one_chunk "temp/chunk_c.pdf" 0 = (None, [])
  ∧ dispatch no_retries false [] (chunk_files 4)
      (after_split no_retries (disk 10 8))
    = [None; None; None; None]
  ∧ (convert_to_markdown no_retries "in.pdf" false [] (disk 10 8)).1
    = Raise (Exception "转换过程出错: 'NoneType' object is not subscriptable").
Proof. split_and!; vm_compute; reflexivity. Qed.

(** C6. Ten pages in chunks of three on a disk with room for two files:
    the third [save] raises inside [_split_pdf], [temp_files] of
    [convert_to_markdown] is still empty when the [finally] block runs, and
    the two chunk files already written stay on disk. *)
Theorem split_failure_leaves_chunk_files :
  (convert_to_markdown chunks "in.pdf" true [] (disk 10 2)).1
  = Raise (Exception
             ("转换过程出错: [Errno 28] No space left on device: "
                +:+ "'temp/chunk_ccc.pdf'"))
  ∧ files (convert_to_markdown chunks "in.pdf" true [] (disk 10 2)).2
      !! "temp/chunk_c.pdf" = Some (PdfFile [1; 2; 3]%nat)
  ∧ files (convert_to_markdown chunks "in.pdf" true [] (disk 10 2)).2
      !! "temp/chunk_cc.pdf" = Some (PdfFile [4; 5; 6]%nat).
Proof. split_and!; vm_compute; reflexivity. Qed.


(** * Further properties of the converter *)

Section Coverage.

Context {Page : Type}.
Implicit Types (self : PDFToMarkdownConverter Page) (w : World Page).
Implicit Types (e : exn) (r : ChunkResult) (doc : list Page).

(** ** Retries of one job *)

Lemma slept_app (t1 t2 : list event) : slept (t1 ++ t2) = slept t1 + slept t2.
Proof.
  induction t1 as [|[attempt|seconds] t1 IH]; simpl; lia.
Qed.

Lemma attempts_made_app (t1 t2 : list event) :
  attempts_made (t1 ++ t2) = (attempts_made t1 + attempts_made t2)%nat.
Proof.
  induction t1 as [|[attempt|seconds] t1 IH]; simpl; lia.
Qed.

Lemma range_stop_seq (stop : Z) :
  range_stop stop = Z.of_nat <$> seq 0 (Z.to_nat stop).
Proof. reflexivity. Qed.

(** Failed attempts [a], [a + 1], ... sleep [2^a + 2^(a+1) + ...]. *)
Lemma slept_failing_trace (n : nat) :
  ∀ a : nat,
    slept (failing_trace (Z.of_nat <$> seq a n))
    = 2 ^ Z.of_nat (a + n) - 2 ^ Z.of_nat a
    ∧ attempts_made (failing_trace (Z.of_nat <$> seq a n)) = n.
Proof.
  induction n as [|n IH]; intros a.
  - simpl. rewrite Nat.add_0_r. split; [lia|done].
  - change (Z.of_nat <$> seq a (S n))
      with (Z.of_nat a :: (Z.of_nat <$> seq (S a) n)).
    cbn [failing_trace slept attempts_made].
    destruct (IH (S a)) as [-> ->]. split; [|done].
    replace (Z.of_nat (a + S n)) with (Z.of_nat (S a + n)) by lia.
    replace (Z.of_nat (S a)) with (Z.succ (Z.of_nat a)) by lia.
    rewrite (Z.pow_succ_r 2 (Z.of_nat a)) by lia. lia.
Qed.

Lemma process_loop_first_success self w pdf_path chunk_index (j : nat) r :
  (∀ i : nat, (i < j)%nat →
     ∃ e, attempt_body self w pdf_path chunk_index (Z.of_nat i) = Raise e) →
  attempt_body self w pdf_path chunk_index (Z.of_nat j) = Ok r →
  ∀ (n a : nat) trace,
    Z.of_nat (a + n) = max_retries self → (a ≤ j < a + n)%nat →
    process_loop self w pdf_path chunk_index (Z.of_nat <$> seq a n) trace
    = (Some r,
       trace ++ failing_trace (Z.of_nat <$> seq a (j - a))
             ++ [EvAttempt (Z.of_nat j)]).
Proof.
  intros Hfail Hok. induction n as [|n IH]; intros a trace Hmax Hj; [lia|].
  change (Z.of_nat <$> seq a (S n))
    with (Z.of_nat a :: (Z.of_nat <$> seq (S a) n)).
  cbn [process_loop].
  destruct (decide (a = j)) as [->|Hne].
  - rewrite Hok, Nat.sub_diag. done.
  - destruct (Hfail a) as [e He]; [lia|]. rewrite He.
    replace (Z.of_nat a =? max_retries self - 1) with false
      by (symmetry; apply Z.eqb_neq; lia).
    rewrite IH by lia.
    replace (j - a)%nat with (S (j - S a)) by lia.
    change (Z.of_nat <$> seq a (S (j - S a)))
      with (Z.of_nat a :: (Z.of_nat <$> seq (S a) (j - S a))).
    cbn [failing_trace]. by rewrite <- !app_assoc.
Qed.

(** X1. The first attempt that succeeds ends the job. When the attempts
    before attempt [j] fail and attempt [j] succeeds, the job returns the
    dictionary of that attempt after [j + 1] attempts, and the sleeps
    between them add up to [2^j - 1]; a job that succeeds at once does not
    sleep. *)
Theorem process_chunk_first_success self w pdf_path chunk_index (j : nat) r :
  Z.of_nat j < max_retries self →
  (∀ i : nat, (i < j)%nat →
     ∃ e, attempt_body self w pdf_path chunk_index (Z.of_nat i) = Raise e) →
  attempt_body self w pdf_path chunk_index (Z.of_nat j) = Ok r →
  _process_chunk self w pdf_path chunk_index
  = (Some r, failing_trace (range_stop (Z.of_nat j)) ++ [EvAttempt (Z.of_nat j)])
  ∧ index r = chunk_index ∧ success r = true
  ∧ attempts_made (_process_chunk self w pdf_path chunk_index).2 = S j
  ∧ slept (_process_chunk self w pdf_path chunk_index).2 = 2 ^ Z.of_nat j - 1.
Proof.
  intros Hj Hfail Hok.
  assert (_process_chunk self w pdf_path chunk_index
          = (Some r, failing_trace (range_stop (Z.of_nat j))
                       ++ [EvAttempt (Z.of_nat j)])) as Hjob.
  { unfold _process_chunk. rewrite !range_stop_seq.
    rewrite (process_loop_first_success self w pdf_path chunk_index j r)
      by (done || lia).
    by rewrite Nat.sub_0_r, Nat2Z.id. }
  destruct (attempt_body_index _ _ _ _ _ _ Hok) as [Hidx Hsucc].
  rewrite Hjob. split_and!; [done..| |].
  - cbn [snd]. rewrite range_stop_seq, Nat2Z.id, attempts_made_app.
    destruct (slept_failing_trace j 0) as [_ ->]. simpl. lia.
  - cbn [snd]. rewrite range_stop_seq, Nat2Z.id, slept_app.
    destruct (slept_failing_trace j 0) as [-> _]. simpl. lia.
Qed.

(** X2. A job whose attempts all fail makes [max_retries] attempts and
    sleeps [2^max_retries - 1] in all, the sleep after the last attempt
    included. *)
Theorem process_chunk_all_fail_cost self w pdf_path chunk_index :
  1 ≤ max_retries self →
  (∀ attempt, 0 ≤ attempt < max_retries self →
     ∃ e, attempt_body self w pdf_path chunk_index attempt = Raise e) →
  Z.of_nat (attempts_made (_process_chunk self w pdf_path chunk_index).2)
  = max_retries self
  ∧ slept (_process_chunk self w pdf_path chunk_index).2
    = 2 ^ max_retries self - 1.
Proof.
  intros Hmax Hfail.
  destruct (process_chunk_all_fail self w pdf_path chunk_index Hmax Hfail)
    as (e & _ & ->). cbn [snd]. rewrite range_stop_seq.
  destruct (slept_failing_trace (Z.to_nat (max_retries self)) 0) as [-> ->].
  split; [lia|]. replace (Z.of_nat (0 + Z.to_nat (max_retries self)))
    with (max_retries self) by lia. simpl. lia.
Qed.

(** X3. A chunk file that does not exist is retried like a remote failure.
    Without consulting the model the job makes its [max_retries] attempts,
    sleeps after each and returns the placeholder of the read error. *)
Theorem process_chunk_missing_file self w pdf_path chunk_index :
  files w !! pdf_path = None →
  1 ≤ max_retries self →
  _process_chunk self w pdf_path chunk_index
  = (Some (mkChunkResult chunk_index
             (failure_placeholder
                (Exception
                   ("PDF文件读取失败: "
                      +:+ ("[Errno 2] No such file or directory: '"
                             +:+ pdf_path +:+ "'"))))
             false),
     failing_trace (range_stop (max_retries self))).
Proof.
  intros Hfile Hmax.
  assert (∀ attempt,
            attempt_body self w pdf_path chunk_index attempt
            = Raise (Exception
                       ("PDF文件读取失败: "
                          +:+ ("[Errno 2] No such file or directory: '"
                                 +:+ pdf_path +:+ "'")))) as Hbody.
  { intros attempt. unfold attempt_body, _read_pdf_file, read_bytes.
    by rewrite Hfile. }
  destruct (process_chunk_all_fail self w pdf_path chunk_index Hmax)
    as (e & He & ->).
  { intros attempt _. by eexists. }
  rewrite Hbody in He. by simplify_eq.
Qed.

Lemma process_loop_result_shape self w pdf_path chunk_index r :
  ∀ (n a : nat) trace,
    Z.of_nat (a + n) = max_retries self →
    (process_loop self w pdf_path chunk_index (Z.of_nat <$> seq a n) trace).1
    = Some r →
    if success r then
      ∃ attempt, 0 ≤ attempt < max_retries self
                 ∧ attempt_body self w pdf_path chunk_index attempt = Ok r
    else
      ∃ e, attempt_body self w pdf_path chunk_index (max_retries self - 1)
             = Raise e
           ∧ r = mkChunkResult chunk_index (failure_placeholder e) false.
Proof.
  induction n as [|n IH]; intros a trace Hmax Hr; [done|].
  change (Z.of_nat <$> seq a (S n))
    with (Z.of_nat a :: (Z.of_nat <$> seq (S a) n)) in Hr.
  cbn [process_loop] in Hr.
  destruct (attempt_body self w pdf_path chunk_index (Z.of_nat a))
    as [r'|e] eqn:Hbody.
  - simpl in Hr. simplify_eq.
    destruct (attempt_body_index _ _ _ _ _ _ Hbody) as [_ ->].
    exists (Z.of_nat a). split; [lia|done].
  - destruct (Z.eqb_spec (Z.of_nat a) (max_retries self - 1)) as [Hlast|Hmore].
    + simpl in Hr. simplify_eq. simpl. exists e. by rewrite <- Hlast.
    + apply IH in Hr; [done|lia].
Qed.

(** X4. The [success] flag of a returned dictionary tells what happened.
    A dictionary with [success] true is the one built by an attempt whose
    remote call answered; a dictionary with [success] false is the
    placeholder for the exception of attempt [max_retries - 1]. Either
    way it carries the index of the job. *)
Theorem process_chunk_result_shape self w pdf_path chunk_index r :
  (_process_chunk self w pdf_path chunk_index).1 = Some r →
  index r = chunk_index
  ∧ if success r then
      ∃ attempt, 0 ≤ attempt < max_retries self
                 ∧ attempt_body self w pdf_path chunk_index attempt = Ok r
    else
      ∃ e, attempt_body self w pdf_path chunk_index (max_retries self - 1)
             = Raise e
           ∧ content r = failure_placeholder e.
Proof.
  intros Hr. unfold _process_chunk in Hr. rewrite range_stop_seq in Hr.
  destruct (Z_le_gt_dec (max_retries self) 0) as [Hle|Hgt].
  { by replace (Z.to_nat (max_retries self)) with 0%nat in Hr by lia. }
  apply process_loop_result_shape in Hr; [|lia].
  destruct (success r) eqn:Hs.
  - destruct Hr as (attempt & Hatt & Hbody). split; [|by eauto].
    by destruct (attempt_body_index _ _ _ _ _ _ Hbody).
  - destruct Hr as (e & He & ->). split; [done|]. by exists e.
Qed.

(** ** What a run does to the disk *)

(** One iteration of the loop of [_split_pdf], by the state of the disk. *)
Lemma split_loop_cons self doc total_pages start starts temp_files w :
  split_loop self doc total_pages (start :: starts) temp_files w
  = let path := chunk_file_name self (uuid_count w) in
    let new_doc := insert_pdf doc start
                     (Z.min (start + chunk_size self) total_pages - 1) in
    match files w !! path, free_slots w with
    | Some _, slots
    | None, S slots =>
        split_loop self doc total_pages starts (temp_files ++ [path])
          (mkWorld (<[path := PdfFile new_doc]> (files w)) slots
             (S (uuid_count w)))
    | None, O =>
        (Raise (OSError ("[Errno 28] No space left on device: '"
                           +:+ path +:+ "'")),
         mkWorld (files w) 0 (S (uuid_count w)))
    end.
Proof.
  cbn [split_loop]. unfold bind, uuid4, fs_write, chunk_file_name.
  cbn [files free_slots uuid_count].
  destruct (files w !! _); [done|]. by destruct (free_slots w).
Qed.

(** The loop of [_split_pdf], whatever its outcome: it changes no file
    besides those named after the UUIDs it draws, it keeps the sum of the
    files stored and the room left, and the list it returns is made of
    those names. *)
Lemma split_loop_effect self doc total_pages :
  ∀ starts temp_files w,
    (∀ path,
       path ∉ chunk_file_name self <$> seq (uuid_count w) (length starts) →
       files (split_loop self doc total_pages starts temp_files w).2 !! path
       = files w !! path)
    ∧ (size (files (split_loop self doc total_pages starts temp_files w).2)
       + free_slots (split_loop self doc total_pages starts temp_files w).2
       = size (files w) + free_slots w)%nat
    ∧ ∀ names,
        (split_loop self doc total_pages starts temp_files w).1 = Ok names →
        names = temp_files
                  ++ (chunk_file_name self
                        <$> seq (uuid_count w) (length starts))
        ∧ uuid_count (split_loop self doc total_pages starts temp_files w).2
          = (uuid_count w + length starts)%nat.
Proof.
  induction starts as [|start starts IH]; intros temp_files w.
  - simpl. split_and!; [done..|]. intros names [= <-].
    by rewrite app_nil_r, Nat.add_0_r.
  - rewrite split_loop_cons. cbn zeta. cbn [length seq]. rewrite fmap_cons.
    set (path := chunk_file_name self (uuid_count w)).
    set (new_doc := insert_pdf doc start
                      (Z.min (start + chunk_size self) total_pages - 1)).
    destruct (files w !! path) as [old|] eqn:Hold;
      [|destruct (free_slots w) as [|slots] eqn:Hslots].
    + destruct (IH (temp_files ++ [path])
                  (mkWorld (<[path := PdfFile new_doc]> (files w))
                     (free_slots w) (S (uuid_count w))))
        as (Hframe & Hsize & Hnames).
      cbn [files free_slots uuid_count] in Hframe, Hsize, Hnames.
      split_and!.
      * intros path' Hnin. apply not_elem_of_cons in Hnin as [Hne Hnin].
        rewrite Hframe by done. by rewrite lookup_insert_ne.
      * rewrite Hsize. rewrite map_size_insert_Some by eauto. done.
      * intros names Hok. destruct (Hnames names Hok) as [-> ->].
        split; [by rewrite <- app_assoc|lia].
    + simpl. split_and!; [done|lia|done].
    + destruct (IH (temp_files ++ [path])
                  (mkWorld (<[path := PdfFile new_doc]> (files w))
                     slots (S (uuid_count w))))
        as (Hframe & Hsize & Hnames).
      cbn [files free_slots uuid_count] in Hframe, Hsize, Hnames.
      split_and!.
      * intros path' Hnin. apply not_elem_of_cons in Hnin as [Hne Hnin].
        rewrite Hframe by done. by rewrite lookup_insert_ne.
      * rewrite Hsize. rewrite map_size_insert_None by done. lia.
      * intros names Hok. destruct (Hnames names Hok) as [-> ->].
        split; [by rewrite <- app_assoc|lia].
Qed.

Lemma split_pdf_effect self pdf_path w :
  (∀ path, (∀ n, path ≠ chunk_file_name self n) →
     files (_split_pdf self pdf_path w).2 !! path = files w !! path)
  ∧ (size (files (_split_pdf self pdf_path w).2)
     + free_slots (_split_pdf self pdf_path w).2
     = size (files w) + free_slots w)%nat
  ∧ ∀ names,
      (_split_pdf self pdf_path w).1 = Ok names →
      names = chunk_file_name self <$> seq (uuid_count w) (length names)
      ∧ uuid_count (_split_pdf self pdf_path w).2
        = (uuid_count w + length names)%nat.
Proof.
  unfold _split_pdf, bind, lift.
  destruct (fitz_open pdf_path w) as [doc|e]; [|done].
  destruct (range 0 (Z.of_nat (length doc)) (chunk_size self))
    as [starts|e]; [|done].
  destruct (split_loop_effect self doc (Z.of_nat (length doc)) starts [] w)
    as (Hframe & Hsize & Hnames).
  split_and!; [|done|].
  - intros path Hpath. apply Hframe.
    intros (n & -> & _)%list_elem_of_fmap. by apply (Hpath n).
  - intros names Hok. destruct (Hnames names Hok) as [Heq ->].
    simpl in Heq. rewrite Heq at 1.
    by rewrite Heq, length_fmap, length_seq.
Qed.

(** The [finally] block keeps the sum of the files stored and the room
    left, and draws no UUID. *)
Lemma cleanup_effect temp_files : ∀ w,
  (size (files (cleanup temp_files w)) + free_slots (cleanup temp_files w)
   = size (files w) + free_slots w)%nat
  ∧ uuid_count (cleanup temp_files w) = uuid_count w.
Proof.
  induction temp_files as [|t l IH]; intros w; [done|].
  cbn [cleanup]. unfold path_exists, os_remove.
  destruct (files w !! t) as [f|] eqn:Ht.
  - rewrite bool_decide_eq_true_2 by eauto.
    destruct (IH (mkWorld (delete t (files w)) (S (free_slots w))
                    (uuid_count w))) as [-> ->].
    cbn [files free_slots uuid_count]. split; [|done].
    rewrite map_size_delete_Some by eauto.
    pose proof (map_size_ne_0_lookup_2 (files w) t ltac:(eauto)). lia.
  - rewrite bool_decide_eq_false_2 by (by intros [? ?]). apply IH.
Qed.

(** The [try] block followed by the [finally] block changes no file
    other than chunk files. *)
Lemma cleanup_after_try_frame self pdf_path parallel completion w path :
  (∀ n, path ≠ chunk_file_name self n) →
  files (cleanup (convert_try self pdf_path parallel completion w).1.2
           (convert_try self pdf_path parallel completion w).2) !! path
  = files w !! path.
Proof.
  intros Hpath. unfold convert_try.
  destruct (split_pdf_effect self pdf_path w) as (Hframe & _ & Hnames).
  destruct (_split_pdf self pdf_path w) as [[temp_files|e] w1] eqn:Hsplit;
    cbn [fst snd] in *.
  - rewrite cleanup_other; [by apply Hframe|].
    destruct (Hnames temp_files eq_refl) as [-> _].
    intros (n & -> & _)%list_elem_of_fmap. by apply (Hpath n).
  - by apply Hframe.
Qed.

(** X5. A run changes no file other than chunk files. Whatever the outcome,
    a path that is not the name of a chunk file holds after the run what it
    held before; in particular the source is never written to unless a
    chunk file is given its very name. *)
Theorem convert_touches_only_chunk_files
    self pdf_path parallel completion w path :
  (∀ n, path ≠ chunk_file_name self n) →
  files (convert_to_markdown self pdf_path parallel completion w).2 !! path
  = files w !! path.
Proof.
  intros Hpath. unfold convert_to_markdown.
  pose proof (cleanup_after_try_frame self pdf_path parallel completion w
                path Hpath) as Hframe.
  by destruct (convert_try self pdf_path parallel completion w)
    as [[r temp_files] w1].
Qed.

(** The [finally] block run on the list a split returned, under names
    that were not in use before the split, undoes the split. *)
Lemma cleanup_undoes_split self pdf_path w temp_files w1 :
  _split_pdf self pdf_path w = (Ok temp_files, w1) →
  (∀ path, path ∈ temp_files → files w !! path = None) →
  cleanup temp_files w1
  = mkWorld (files w) (free_slots w) (uuid_count w + length temp_files).
Proof.
  intros Hsplit Hfresh.
  destruct (split_pdf_effect self pdf_path w) as (_ & Hsize & Hnames).
  rewrite Hsplit in *. cbn [fst snd] in *.
  destruct (Hnames temp_files eq_refl) as [Hnamed Hcount].
  destruct (cleanup_effect temp_files w1) as [Hsize' Hcount'].
  assert (files (cleanup temp_files w1) = files w) as Hfiles.
  { apply map_eq. intros path.
    destruct (decide (path ∈ temp_files)) as [Hin|Hnin].
    - rewrite cleanup_removes by done. symmetry. by apply Hfresh.
    - rewrite cleanup_other by done.
      unfold _split_pdf, bind, lift in Hsplit.
      destruct (fitz_open pdf_path w) as [doc|e]; [|done].
      destruct (range 0 (Z.of_nat (length doc)) (chunk_size self))
        as [starts|e]; [|done].
      destruct (split_loop_effect self doc (Z.of_nat (length doc)) starts [] w)
        as (Hframe & _ & Hnames').
      rewrite Hsplit in Hframe, Hnames'. cbn [fst snd] in *.
      destruct (Hnames' temp_files eq_refl) as [Heq _]. simpl in Heq.
      apply Hframe. by rewrite <- Heq. }
  destruct (cleanup temp_files w1) as [fs slots count].
  cbn [files free_slots uuid_count] in *. subst fs.
  f_equal; lia.
Qed.

(** X6. A run whose split returns leaves the disk as it found it. When
    none of the chunk file names drawn was in use before the run, the files
    and the room left are the same after the run as before, whether the
    run returns a text or raises after the split. *)
Theorem convert_restores_disk
    self pdf_path parallel completion w temp_files w1 :
  _split_pdf self pdf_path w = (Ok temp_files, w1) →
  (∀ path, path ∈ temp_files → files w !! path = None) →
  (convert_to_markdown self pdf_path parallel completion w).2
  = mkWorld (files w) (free_slots w) (uuid_count w + length temp_files).
Proof.
  intros Hsplit Hfresh. unfold convert_to_markdown, convert_try.
  rewrite Hsplit. cbn [snd].
  by apply (cleanup_undoes_split self pdf_path).
Qed.

(** ** When a run returns *)

(** Without a chunk the statistics divide by zero. *)
Lemma assemble_no_chunks self parallel completion w :
  assemble self parallel completion [] w
  = Raise (ZeroDivisionError "division by zero").
Proof.
  unfold assemble, dispatch, jobs. simpl.
  assert (omap (λ i : nat, ([] : list (option ChunkResult)) !! i) completion
          = []) as ->; [by induction completion|].
  by destruct parallel.
Qed.

(** Without an attempt the sort meets [None]. *)
Lemma assemble_no_attempt self parallel completion temp_files w :
  max_retries self ≤ 0 →
  temp_files ≠ [] →
  (parallel = true → completion ≡ₚ seq 0 (length temp_files)) →
  assemble self parallel completion temp_files w
  = Raise (TypeError "'NoneType' object is not subscriptable").
Proof.
  intros Hmax Hne Hperm.
  assert (assemble self parallel completion temp_files w
          = assemble self false completion temp_files w) as ->.
  { destruct parallel; [|done]. apply assemble_parallel_sequential. auto. }
  unfold assemble, dispatch, sort_results, jobs.
  destruct temp_files as [|t l]; [done|].
  rewrite imap_cons. by rewrite process_chunk_no_attempt by done.
Qed.

(** X7. A run returns a text exactly when the split produced at least one
    chunk and at least one attempt per chunk is configured. In every other
    case it raises: a failure of a chunk is never the reason, a missing
    chunk or a missing attempt always is. *)
Theorem convert_returns_iff self pdf_path parallel completion w :
  (parallel = true → completion ≡ₚ seq 0 (chunks_count self pdf_path w)) →
  (∃ markdown_content,
     (convert_to_markdown self pdf_path parallel completion w).1
     = Ok markdown_content)
  ↔ chunks_count self pdf_path w ≠ 0%nat ∧ 1 ≤ max_retries self.
Proof.
  unfold chunks_count. intros Hperm.
  destruct (_split_pdf self pdf_path w) as [[temp_files|e] w1] eqn:Hsplit;
    cbn [fst] in Hperm |- *.
  - split.
    + intros [md Hmd]. unfold convert_to_markdown, convert_try in Hmd.
      rewrite Hsplit in Hmd. cbn [fst] in Hmd.
      destruct temp_files as [|t l].
      { by rewrite assemble_no_chunks in Hmd. }
      split; [done|].
      destruct (Z_le_gt_dec (max_retries self) 0) as [Hle|Hgt]; [|lia].
      by rewrite assemble_no_attempt in Hmd.
    + intros [Hne Hmax].
      destruct (convert_returns self pdf_path parallel completion w
                  temp_files w1) as (ordered & _ & _ & ->);
        [done|by destruct temp_files|done..|by eexists].
  - split; [|by intros [? _]].
    intros [md Hmd]. unfold convert_to_markdown, convert_try in Hmd.
    by rewrite Hsplit in Hmd.
Qed.

(** X8. With [max_retries] zero or negative every run that splits into at
    least one chunk raises the wrapped [TypeError] of the sort, in both
    modes, after having removed its chunk files. *)
Theorem convert_no_attempt_raises
    self pdf_path parallel completion w temp_files w1 :
  _split_pdf self pdf_path w = (Ok temp_files, w1) →
  temp_files ≠ [] →
  max_retries self ≤ 0 →
  (parallel = true → completion ≡ₚ seq 0 (length temp_files)) →
  convert_to_markdown self pdf_path parallel completion w
  = (Raise (Exception "转换过程出错: 'NoneType' object is not subscriptable"),
     cleanup temp_files w1).
Proof.
  intros Hsplit Hne Hmax Hperm. unfold convert_to_markdown, convert_try.
  rewrite Hsplit. by rewrite assemble_no_attempt.
Qed.

(** X9. A chunk size of zero or less never yields a text. On a source that
    opens, a zero chunk size raises the wrapped [ValueError] of [range] and
    a negative one gives no chunk at all, so the run raises the wrapped
    [ZeroDivisionError]; the world is left as it was. *)
Theorem convert_nonpositive_chunk_size
    self pdf_path parallel completion w doc :
  files w !! pdf_path = Some (PdfFile doc) →
  chunk_size self ≤ 0 →
  convert_to_markdown self pdf_path parallel completion w
  = (Raise (Exception
              (if chunk_size self =? 0
               then "转换过程出错: range() arg 3 must not be zero"
               else "转换过程出错: division by zero")), w).
Proof.
  intros Hfile Hcs. unfold convert_to_markdown, convert_try.
  unfold _split_pdf, bind, lift, fitz_open, range. rewrite Hfile.
  destruct (Z.eqb_spec (chunk_size self) 0) as [Hz|Hnz]; [done|].
  unfold range_len.
  destruct (Z.ltb_spec 0 (chunk_size self)) as [|_]; [lia|].
  destruct (Z.ltb_spec (Z.of_nat (length doc)) 0) as [|_]; [lia|].
  simpl. by rewrite assemble_no_chunks.
Qed.

(** X10. A source that cannot be opened ends the run before anything is
    drawn or written: the caller gets the wrapped exception of [fitz.open]
    and the world is left as it was. *)
Theorem convert_unreadable_source self pdf_path parallel completion w e :
  fitz_open pdf_path w = Raise e →
  convert_to_markdown self pdf_path parallel completion w
  = (Raise (Exception ("转换过程出错: " +:+ str e)), w).
Proof.
  intros Hopen. unfold convert_to_markdown, convert_try.
  unfold _split_pdf, bind. by rewrite Hopen.
Qed.

(** ** A disk that fills up during the split *)



(** ** Saving *)


(** X13. The last save wins. After a save that succeeded, saving another
    text to the same destination succeeds as well and leaves the world
    that saving the second text alone would have left: nothing of the
    first text remains and no room is used twice. *)
Theorem save_markdown_last_write_wins w text1 text2 output_path w1 :
  save_markdown text1 output_path w = (Ok tt, w1) →
  ∃ w2,
    save_markdown text2 output_path w1 = (Ok tt, w2)
    ∧ save_markdown text2 output_path w = (Ok tt, w2)
    ∧ files w2 !! output_path = Some (TextFile text2)
    ∧ free_slots w2 = free_slots w1.
Proof.
  unfold save_markdown, fs_write. intros Hsave.
  destruct (files w !! output_path) as [f|] eqn:Hf.
  - simplify_eq. cbn [files free_slots uuid_count].
    rewrite lookup_insert_eq. eexists. split; [done|].
    rewrite insert_insert_eq. split_and!; [done| |done].
    cbn [files]. by rewrite lookup_insert_eq.
  - destruct (free_slots w) as [|slots]; [done|]. simplify_eq.
    cbn [files free_slots uuid_count].
    rewrite lookup_insert_eq. eexists. split; [done|].
    rewrite insert_insert_eq. split_and!; [done| |done].
    cbn [files]. by rewrite lookup_insert_eq.
Qed.

(** X14. A document that fits in one chunk. When the page count does not
    exceed the chunk size the split saves one file holding the whole
    document, and the text returned is the content of the one result, with
    no separator added. *)
Theorem convert_single_chunk self pdf_path parallel completion w doc :
  files w !! pdf_path = Some (PdfFile doc) →
  (1 ≤ length doc)%nat →
  Z.of_nat (length doc) ≤ chunk_size self →
  1 ≤ max_retries self →
  (1 ≤ free_slots w)%nat →
  (parallel = true → completion = [0%nat]) →
  ∃ r w1,
    _split_pdf self pdf_path w
    = (Ok [chunk_file_name self (uuid_count w)], w1)
    ∧ files w1 !! chunk_file_name self (uuid_count w) = Some (PdfFile doc)
    ∧ (_process_chunk self w1 (chunk_file_name self (uuid_count w)) 0).1
      = Some r
    ∧ (convert_to_markdown self pdf_path parallel completion w).1
      = Ok (content r).
Proof.
  intros Hfile Hlen Hfit Hmax Hroom Hperm.
  set (P := Z.of_nat (length doc)) in *. set (s := chunk_size self) in *.
  assert (ceil_div P s = 1) as Hone.
  { destruct (chunk_count_bounds P s) as (? & ? & ?); [unfold P; lia|lia|nia]. }
  destruct (split_loop_spec self doc P [0 + Z.of_nat 0 * s] [] w)
    as (w1 & Hloop & Hsaved & _).
  { simpl. lia. }
  { simpl. apply NoDup_singleton. }
  cbn [length seq fmap list_fmap app] in Hloop.
  assert (_split_pdf self pdf_path w
          = (Ok [chunk_file_name self (uuid_count w)], w1)) as Hsplit.
  { unfold _split_pdf, bind, lift, fitz_open. rewrite Hfile.
    fold P. fold s. rewrite range_chunk_starts by (unfold P; lia || lia).
    by rewrite Hone. }
  assert (files w1 !! chunk_file_name self (uuid_count w)
          = Some (PdfFile doc)) as Hchunk.
  { pose proof (Hsaved 0%nat _ eq_refl) as Hf. rewrite Nat.add_0_r in Hf.
    rewrite Hf. fold s.
    destruct (insert_pdf_chunk doc s 0) as [Hcopy Hslice];
      [unfold P in *; lia..|].
    fold P in Hcopy, Hslice. rewrite Hcopy, Hslice. simpl.
    rewrite take_ge; [done|]. rewrite drop_0. unfold P in Hfit. lia. }
  destruct (convert_returns self pdf_path parallel completion w
              [chunk_file_name self (uuid_count w)] w1)
    as (ordered & Hjobs & _ & Hconv); [done|done|done| |].
  { intros Hp. by rewrite (Hperm Hp). }
  destruct (process_chunk_returns self w1 (chunk_file_name self (uuid_count w))
              0 Hmax) as (r & Hr & _).
  exists r, w1. split_and!; [done..|].
  rewrite Hconv. cbn [fst]. unfold jobs in Hjobs.
  rewrite imap_cons in Hjobs. cbn [imap] in Hjobs.
  change (Z.of_nat 0) with 0 in Hjobs. rewrite Hr in Hjobs.
  destruct ordered as [|r' [|r'' ordered]]; [done| |done].
  injection Hjobs as <-. done.
Qed.

(** ** The exit handler *)







(** ** The script *)

(** X16. What [main] leaves behind after a conversion that returned. When
    the split returns at least one chunk under names that were not in use,
    and the destination exists or the disk has room, [main] prints the
    completion line and the only change to the disk is the destination,
    which holds the contents of the chunks in index order. The line is the
    same when no chunk was converted: if the remote model fails on every
    call, the text saved is made of failure placeholders only. *)
Theorem main_saves_text
    temp_dir_ model_ uuid4_hex_ pdf_path output_path completion
    w temp_files w1 :
  _split_pdf (mkConverter 3 3 temp_dir_ model_ uuid4_hex_) pdf_path w
  = (Ok temp_files, w1) →
  temp_files ≠ [] →
  completion ≡ₚ seq 0 (length temp_files) →
  (∀ path, path ∈ temp_files → files w !! path = None) →
  is_Some (files w !! output_path) ∨ (0 < free_slots w)%nat →
  ∃ ordered w2,
    jobs (mkConverter 3 3 temp_dir_ model_ uuid4_hex_) w1 temp_files
    = Some <$> ordered
    ∧ main temp_dir_ model_ uuid4_hex_ pdf_path output_path completion w
      = ("转换完成！文件已保存至: " +:+ output_path, w2)
    ∧ files w2
      = <[output_path := TextFile (join blank_line (content <$> ordered))]>
          (files w)
    ∧ ((∀ chunk_index attempt p,
          ∃ e, model_ chunk_index attempt p = Raise e) →
       Forall (λ r, success r = false
                    ∧ ∃ e, content r = "<!-- 处理失败: " +:+ str e +:+ " -->")
              ordered).
Proof.
  intros Hsplit Hne Hperm Hfresh Hroom.
  set (conv := mkConverter 3 3 temp_dir_ model_ uuid4_hex_) in *.
  destruct (convert_returns conv pdf_path true completion w temp_files w1)
    as (ordered & Hjobs & _ & Hconv); [done|done|simpl; lia|done|].
  rewrite (cleanup_undoes_split conv pdf_path w temp_files w1 Hsplit Hfresh)
    in Hconv.
  assert ((∀ chunk_index attempt p,
             ∃ e, model_ chunk_index attempt p = Raise e) →
          Forall (λ r, success r = false
                       ∧ ∃ e, content r
                              = "<!-- 处理失败: " +:+ str e +:+ " -->")
                 ordered) as Hplaceholders.
  { intros Hdown. apply Forall_forall. intros r Hr.
    apply list_elem_of_lookup in Hr as [k Hk].
    assert (jobs conv w1 temp_files !! k = Some (Some r)) as Hjob
      by (by rewrite Hjobs, list_lookup_fmap, Hk).
    unfold jobs in Hjob. rewrite list_lookup_imap in Hjob.
    destruct (temp_files !! k) as [t|]; [|done]. simpl in Hjob.
    destruct (process_chunk_all_fail conv w1 t (Z.of_nat k))
      as (e & _ & Hall); [simpl; lia| |].
    { intros attempt _. apply attempt_body_model_fails. intros p. apply Hdown. }
    rewrite Hall in Hjob. cbn [fst] in Hjob. simplify_eq.
    split; [done|]. by exists e. }
  exists ordered. unfold main. fold conv. rewrite Hconv.
  unfold save_markdown, fs_write. cbn [files free_slots uuid_count].
  destruct (files w !! output_path) as [f|] eqn:Hf.
  - eexists. by split_and!.
  - destruct Hroom as [[? ?]|Hroom]; [done|].
    destruct (free_slots w) as [|slots]; [lia|].
    eexists. by split_and!.
Qed.

(** X17. When the conversion raises, [main] saves nothing. It prints the
    error line, in which the message of the cause stands behind the
    context of [convert_to_markdown], and a destination that is not a
    chunk file holds what it held before. *)
Theorem main_conversion_error
    temp_dir_ model_ uuid4_hex_ pdf_path output_path completion w e
    temp_files w1 :
  convert_try (mkConverter 3 3 temp_dir_ model_ uuid4_hex_) pdf_path true
    completion w = (Raise e, temp_files, w1) →
  (∀ n, output_path
        ≠ chunk_file_name (mkConverter 3 3 temp_dir_ model_ uuid4_hex_) n) →
  (main temp_dir_ model_ uuid4_hex_ pdf_path output_path completion w).1
  = "转换过程中出现错误: " +:+ ("转换过程出错: " +:+ str e)
  ∧ files (main temp_dir_ model_ uuid4_hex_ pdf_path output_path completion w).2
      !! output_path
    = files w !! output_path.
Proof.
  intros Htry Hout.
  set (conv := mkConverter 3 3 temp_dir_ model_ uuid4_hex_) in *.
  pose proof (cleanup_after_try_frame conv pdf_path true completion w
                output_path Hout) as Hframe.
  unfold main. fold conv.
  unfold convert_to_markdown. rewrite Htry in *. by split.
Qed.

End Coverage.


(** * The further properties on the sample runs *)


Lemma chunk_files_new (slots n : nat) :
  ∀ path, path ∈ chunk_files n → files (disk 10 slots) !! path = None.
Proof.
  intros path (k & -> & _)%list_elem_of_fmap.
  unfold disk. cbn [files]. apply lookup_singleton_ne.
  unfold chunk_file_name, path_join. simpl. discriminate.
Qed.

Lemma not_a_chunk_file (self : PDFToMarkdownConverter nat) (name : string) :
  temp_dir self = "temp" → no_sep name = true →
  ∀ n, name ≠ chunk_file_name self n.
Proof.
  intros Hdir Hname n Heq. rewrite Heq in Hname.
  unfold chunk_file_name, path_join in Hname. rewrite Hdir in Hname.
  simpl in Hname. discriminate.
Qed.

(** The model answers at the third call. *)
Lemma recovering_job_succeeds_at_third_attempt :
  _process_chunk recovering one_chunk "temp/chunk_c.pdf" 0
  = (Some (mkChunkResult 0 "chunk0" true),
     failing_trace (range_stop (Z.of_nat 2)) ++ [EvAttempt (Z.of_nat 2)])
  ∧ index (mkChunkResult 0 "chunk0" true) = 0
  ∧ success (mkChunkResult 0 "chunk0" true) = true
  ∧ attempts_made
      (_process_chunk recovering one_chunk "temp/chunk_c.pdf" 0).2 = 3%nat
  ∧ slept (_process_chunk recovering one_chunk "temp/chunk_c.pdf" 0).2
    = 2 ^ Z.of_nat 2 - 1.
Proof.
  apply (process_chunk_first_success recovering one_chunk "temp/chunk_c.pdf"
           0 2 (mkChunkResult 0 "chunk0" true)).
  - simpl. lia.
  - intros [|[|i]] Hi; [by eexists..|lia].
  - reflexivity.
Defined.

(** The model is down: three attempts and seven time units of sleep. *)
Lemma down_job_cost :
  Z.of_nat (attempts_made
              (_process_chunk down one_chunk "temp/chunk_c.pdf" 0).2)
  = max_retries down
  ∧ slept (_process_chunk down one_chunk "temp/chunk_c.pdf" 0).2
    = 2 ^ max_retries down - 1.
Proof.
  apply (process_chunk_all_fail_cost down one_chunk "temp/chunk_c.pdf" 0).
  - simpl. lia.
  - intros attempt _. by eexists.
Defined.

(** A chunk file that is not there. *)
Lemma missing_chunk_file_placeholder :
  _process_chunk chunks one_chunk "temp/gone.pdf" 5
  = (Some (mkChunkResult 5
             (failure_placeholder
                (Exception
                   ("PDF文件读取失败: "
                      +:+ ("[Errno 2] No such file or directory: '"
                             +:+ "temp/gone.pdf" +:+ "'"))))
             false),
     failing_trace (range_stop (max_retries chunks))).
Proof.
  apply (process_chunk_missing_file chunks one_chunk "temp/gone.pdf" 5).
  - reflexivity.
  - simpl. lia.
Defined.

Lemma down_job_result_shape :
  index (mkChunkResult 0 "<!-- 处理失败: 503 Service Unavailable #2 -->" false)
  = 0
  ∧ if success (mkChunkResult 0
                  "<!-- 处理失败: 503 Service Unavailable #2 -->" false)
    then
      ∃ attempt,
        0 ≤ attempt < max_retries down
        ∧ attempt_body down one_chunk "temp/chunk_c.pdf" 0 attempt
          = Ok (mkChunkResult 0
                  "<!-- 处理失败: 503 Service Unavailable #2 -->" false)
    else
      ∃ e,
        attempt_body down one_chunk "temp/chunk_c.pdf" 0 (max_retries down - 1)
        = Raise e
        ∧ content (mkChunkResult 0
                     "<!-- 处理失败: 503 Service Unavailable #2 -->" false)
          = failure_placeholder e.
Proof.
  apply (process_chunk_result_shape down one_chunk "temp/chunk_c.pdf" 0).
  vm_compute. reflexivity.
Defined.

(** The source survives a run that leaks chunk files. *)
Lemma source_untouched_by_failed_run :
  files (convert_to_markdown chunks "in.pdf" true [] (disk 10 2)).2 !! "in.pdf"
  = files (disk 10 2) !! "in.pdf".
Proof.
  apply (convert_touches_only_chunk_files chunks "in.pdf" true []
           (disk 10 2) "in.pdf").
  by apply not_a_chunk_file.
Defined.

Lemma chunks_run_restores_disk :
  (convert_to_markdown chunks "in.pdf" true [2; 0; 3; 1]%nat (disk 10 8)).2
  = mkWorld (files (disk 10 8)) (free_slots (disk 10 8))
      (uuid_count (disk 10 8) + length (chunk_files 4)).
Proof.
  apply (convert_restores_disk chunks "in.pdf" true [2; 0; 3; 1]%nat
           (disk 10 8) (chunk_files 4) (after_split chunks (disk 10 8))).
  - vm_compute. reflexivity.
  - apply chunk_files_new.
Defined.

Lemma chunks_run_returns_iff :
  (∃ markdown_content,
     (convert_to_markdown chunks "in.pdf" true [2; 0; 3; 1]%nat (disk 10 8)).1
     = Ok markdown_content)
  ↔ chunks_count chunks "in.pdf" (disk 10 8) ≠ 0%nat ∧ 1 ≤ max_retries chunks.
Proof.
  apply (convert_returns_iff chunks "in.pdf" true [2; 0; 3; 1]%nat (disk 10 8)).
  intros _. apply (bool_decide_unpack _). vm_compute. exact I.
Defined.

Lemma no_retries_run_raises :
  convert_to_markdown no_retries "in.pdf" true [1; 3; 0; 2]%nat (disk 10 8)
  = (Raise (Exception "转换过程出错: 'NoneType' object is not subscriptable"),
     cleanup (chunk_files 4) (after_split no_retries (disk 10 8))).
Proof.
  apply (convert_no_attempt_raises no_retries "in.pdf" true [1; 3; 0; 2]%nat
           (disk 10 8)).
  - vm_compute. reflexivity.
  - discriminate.
  - simpl. lia.
  - intros _. apply (bool_decide_unpack _). vm_compute. exact I.
Defined.

Lemma backwards_run_raises :
  convert_to_markdown backwards "in.pdf" false [] (disk 10 8)
  = (Raise (Exception
              (if chunk_size backwards =? 0
               then "转换过程出错: range() arg 3 must not be zero"
               else "转换过程出错: division by zero")), disk 10 8).
Proof.
  apply (convert_nonpositive_chunk_size backwards "in.pdf" false []
           (disk 10 8) (seq 1 10)).
  - reflexivity.
  - simpl. lia.
Defined.

Example zero_chunk_size_run_raises :
  (convert_to_markdown (converter 0 3 chunk_ocr) "in.pdf" true [] (disk 10 8)).1
  = Raise (Exception "转换过程出错: range() arg 3 must not be zero").
Proof. vm_compute. reflexivity. Qed.

Lemma missing_source_run :
  convert_to_markdown chunks "missing.pdf" true [] (disk 10 8)
  = (Raise (Exception
              ("转换过程出错: "
                 +:+ str (FileNotFoundError
                            ("no such file: '" +:+ "missing.pdf" +:+ "'")))),
     disk 10 8).
Proof.
  apply (convert_unreadable_source chunks "missing.pdf" true [] (disk 10 8)).
  reflexivity.
Defined.



Lemma save_two_texts :
  ∃ w2,
    save_markdown "second" "out.md"
      (save_markdown "first" "out.md" (disk 10 1)).2 = (Ok tt, w2)
    ∧ save_markdown "second" "out.md" (disk 10 1) = (Ok tt, w2)
    ∧ files w2 !! "out.md" = Some (TextFile "second")
    ∧ free_slots w2
      = free_slots (save_markdown "first" "out.md" (disk 10 1)).2.
Proof.
  apply (save_markdown_last_write_wins (disk 10 1) "first" "second" "out.md").
  reflexivity.
Defined.

(** Ten pages in one chunk of twenty. *)
Lemma wide_run_single_chunk :
  ∃ r w1,
    _split_pdf wide "in.pdf" (disk 10 8)
    = (Ok [chunk_file_name wide (uuid_count (disk 10 8))], w1)
    ∧ files w1 !! chunk_file_name wide (uuid_count (disk 10 8))
      = Some (PdfFile (seq 1 10))
    ∧ (_process_chunk wide w1
         (chunk_file_name wide (uuid_count (disk 10 8))) 0).1 = Some r
    ∧ (convert_to_markdown wide "in.pdf" true [0%nat] (disk 10 8)).1
      = Ok (content r).
Proof.
  apply (convert_single_chunk wide "in.pdf" true [0%nat] (disk 10 8)
           (seq 1 10)).
  - reflexivity.
  - simpl. lia.
  - simpl. lia.
  - simpl. lia.
  - simpl. lia.
  - done.
Defined.


Example exit_handler_leaves_source_only :
  files (_cleanup_temp_dir chunks
           (convert_to_markdown chunks "in.pdf" true [] (disk 10 2)).2)
  = files (disk 10 2).
Proof. vm_compute. reflexivity. Qed.

(** The script on the end-to-end scenario. *)
Lemma main_on_ten_pages :
  ∃ ordered w2,
    jobs (mkConverter 3 3 "temp" chunk_ocr sample_hex)
      (after_split chunks (disk 10 8)) (chunk_files 4)
    = Some <$> ordered
    ∧ main "temp" chunk_ocr sample_hex "in.pdf" "out.md" [2; 0; 3; 1]%nat
        (disk 10 8)
      = ("转换完成！文件已保存至: " +:+ "out.md", w2)
    ∧ files w2
      = <["out.md" := TextFile (join blank_line (content <$> ordered))]>
          (files (disk 10 8))
    ∧ ((∀ chunk_index attempt p,
          ∃ e, chunk_ocr chunk_index attempt p = Raise e) →
       Forall (λ r, success r = false
                    ∧ ∃ e, content r = "<!-- 处理失败: " +:+ str e +:+ " -->")
              ordered).
Proof.
  apply (main_saves_text "temp" chunk_ocr sample_hex "in.pdf" "out.md"
           [2; 0; 3; 1]%nat (disk 10 8) (chunk_files 4)
           (after_split chunks (disk 10 8))).
  - vm_compute. reflexivity.
  - discriminate.
  - apply (bool_decide_unpack _). vm_compute. exact I.
  - apply chunk_files_new.
  - right. simpl. lia.
Defined.

Example main_with_model_down :
  (main "temp" failing_ocr sample_hex "in.pdf" "out.md" [0; 1; 2; 3]%nat
     (disk 10 8)).1
  = "转换完成！文件已保存至: out.md"
  ∧ files (main "temp" failing_ocr sample_hex "in.pdf" "out.md"
             [0; 1; 2; 3]%nat (disk 10 8)).2 !! "out.md"
    = Some (TextFile
              (join blank_line
                 ["<!-- 处理失败: 503 Service Unavailable #2 -->";
                  "<!-- 处理失败: 503 Service Unavailable #2 -->";
                  "<!-- 处理失败: 503 Service Unavailable #2 -->";
                  "<!-- 处理失败: 503 Service Unavailable #2 -->"])).
Proof. split; vm_compute; reflexivity. Qed.

(** The script on a source that is not there. *)
Lemma main_on_missing_source :
  (main "temp" chunk_ocr sample_hex "missing.pdf" "out.md" [] (disk 10 8)).1
  = "转换过程中出现错误: "
      +:+ ("转换过程出错: "
             +:+ str (FileNotFoundError
                        ("no such file: '" +:+ "missing.pdf" +:+ "'")))
  ∧ files (main "temp" chunk_ocr sample_hex "missing.pdf" "out.md" []
             (disk 10 8)).2 !! "out.md"
    = files (disk 10 8) !! "out.md".
Proof.
  apply (main_conversion_error "temp" chunk_ocr sample_hex "missing.pdf"
           "out.md" [] (disk 10 8) _ [] (disk 10 8)).
  - reflexivity.
  - by apply not_a_chunk_file.
Defined.
